(** * rpi-iot-network: coordinator registry, command relay, failover logger
      and client auto-off timers.

    The three programs are embedded separately:
    - [Dashboard]   : apple-dashboard-fixed.py (heartbeat registry, LED relay)
    - [Esp32Logger] : esp32_monitor_logger.py  (line classifier and its logs)
    - [Client]      : example-client_app.py    (DeviceManager.control_led and
                      the auto-off timers)
    [Py] holds the fragment of Python's value model that they share. *)

From Stdlib Require Import ZArith String Ascii List Lia.
From Stdlib Require Import DecimalString DecimalPos.
From stdpp Require Import gmap strings list fin_maps.

Set Warnings "-register-all".

Local Open Scope string_scope.
Local Open Scope list_scope.
Local Open Scope Z_scope.

(* ===================================================================== *)
(** ** Python values that cross the HTTP boundary *)
(* ===================================================================== *)

Module Py.

(** What [json.loads] produces.  Strings are sequences of code points below
    U+0100, one [ascii] each; number literals are the integer ones (a literal with a fraction or an
    exponent is a binary float and stays outside this model).  [JObj] is the
    parsed dict: [dict_get] returns the binding that a lookup finds. *)
Inductive json : Type :=
| JNull
| JBool (b : bool)
| JInt (z : Z)
| JStr (s : string)
| JArr (items : list json)
| JObj (fields : list (string * json)).

(** [bool(v)], as used by [if v:] and [not v]. *)
Definition truthy (v : json) : bool :=
  match v with
  | JNull => false
  | JBool b => b
  | JInt z => negb (z =? 0)
  | JStr s => negb (String.eqb s "")
  | JArr items => match items with [] => false | _ => true end
  | JObj fields => match fields with [] => false | _ => true end
  end.

(** Keys of a Python dict, up to [==] and [hash]: [True == 1], [False == 0]. *)
Inductive pykey : Type :=
| KNone
| KInt (z : Z)
| KStr (s : string).

#[global] Instance pykey_eq_dec : EqDecision pykey.
Proof. solve_decision. Defined.

Definition pykey_enc (k : pykey) : unit + (Z + string) :=
  match k with
  | KNone => inl tt
  | KInt z => inr (inl z)
  | KStr s => inr (inr s)
  end.

Definition pykey_dec (x : unit + (Z + string)) : pykey :=
  match x with
  | inl _ => KNone
  | inr (inl z) => KInt z
  | inr (inr s) => KStr s
  end.

#[global] Instance pykey_countable : Countable pykey.
Proof.
  apply (inj_countable' pykey_enc pykey_dec).
  intros []; reflexivity.
Defined.

(** The key under which a value is stored; [None] for the unhashable
    [list] and [dict]. *)
Definition dict_key (v : json) : option pykey :=
  match v with
  | JNull => Some KNone
  | JBool b => Some (KInt (if b then 1 else 0))
  | JInt z => Some (KInt z)
  | JStr s => Some (KStr s)
  | JArr _ | JObj _ => None
  end.

Definition type_name (v : json) : string :=
  match v with
  | JNull => "NoneType"
  | JBool _ => "bool"
  | JInt _ => "int"
  | JStr _ => "str"
  | JArr _ => "list"
  | JObj _ => "dict"
  end.

(** [d.get(key, default)] on a dict. *)
Fixpoint dict_get (fields : list (string * json)) (key : string) (default : json) : json :=
  match fields with
  | [] => default
  | (k, v) :: rest => if String.eqb k key then v else dict_get rest key default
  end.

(** [needle in hay] on strings. *)
Fixpoint contains (needle hay : string) : bool :=
  String.prefix needle hay ||
  match hay with
  | EmptyString => false
  | String _ rest => contains needle rest
  end.

Definition Z_to_string (z : Z) : string := NilZero.string_of_int (Z.to_int z).

Definition hex_digit (n : N) : ascii :=
  ascii_of_N (if (n <? 10)%N then 48 + n else 87 + n)%N.

Definition backslash : ascii := ascii_of_N 92.

Definition repr_char (quote c : ascii) : string :=
  let n := N_of_ascii c in
  if Ascii.eqb c quote || Ascii.eqb c backslash then String backslash (String c "")
  else if (n =? 9)%N then String backslash "t"
  else if (n =? 10)%N then String backslash "n"
  else if (n =? 13)%N then String backslash "r"
  else if (n <? 32)%N || ((127 <=? n)%N && (n <=? 160)%N) || (n =? 173)%N
       then String backslash
              (String "x" (String (hex_digit (n / 16))
                             (String (hex_digit (n mod 16)) "")))
  else String c "".

Fixpoint repr_chars (quote : ascii) (s : string) : string :=
  match s with
  | EmptyString => ""
  | String c rest => repr_char quote c +:+ repr_chars quote rest
  end.

(** [repr(s)]: single quotes unless the text has a single quote and no
    double quote. *)
Definition repr_str (s : string) : string :=
  let double : ascii := ascii_of_N 34 in
  let quote : ascii :=
    if contains "'" s && negb (contains (String double "") s)
    then double else "'"%char in
  String quote (repr_chars quote s) +:+ String quote "".

Fixpoint py_repr (v : json) : string :=
  match v with
  | JNull => "None"
  | JBool b => if b then "True" else "False"
  | JInt z => Z_to_string z
  | JStr s => repr_str s
  | JArr items => "[" +:+ String.concat ", " (map py_repr items) +:+ "]"
  | JObj fields =>
      "{" +:+ String.concat ", "
                (map (fun kv => let '(k, x) := kv in repr_str k +:+ ": " +:+ py_repr x) fields)
          +:+ "}"
  end.

(** [str(v)] and the [{v}] of an f-string. *)
Definition py_str (v : json) : string :=
  match v with
  | JStr s => s
  | _ => py_repr v
  end.

(** [c.isspace()] *)
Definition is_space (c : ascii) : bool :=
  let n := N_of_ascii c in
  ((9 <=? n)%N && (n <=? 13)%N) || ((28 <=? n)%N && (n <=? 32)%N)
  || (n =? 133)%N || (n =? 160)%N.

Definition lower_char (c : ascii) : ascii :=
  let n := N_of_ascii c in
  if ((65 <=? n)%N && (n <=? 90)%N)
     || ((192 <=? n)%N && (n <=? 222)%N && negb (n =? 215)%N)
  then ascii_of_N (n + 32) else c.

(** [s.lower()] *)
Fixpoint lower (s : string) : string :=
  match s with
  | EmptyString => ""
  | String c rest => String (lower_char c) (lower rest)
  end.

Fixpoint lstrip (s : string) : string :=
  match s with
  | EmptyString => ""
  | String c rest => if is_space c then lstrip rest else s
  end.

Fixpoint rstrip (s : string) : string :=
  match s with
  | EmptyString => ""
  | String c rest =>
      let kept := rstrip rest in
      if is_space c && String.eqb kept "" then "" else String c kept
  end.

(** [s.strip()] *)
Definition strip (s : string) : string := rstrip (lstrip s).

(** [s.split(sep)] for a non-empty [sep]: the separators are found from the
    left and do not overlap.  [skip] counts the characters of a separator
    still to be passed over; [cur] is the piece being collected. *)
Fixpoint split_from (sep : string) (skip : nat) (cur s : string) : list string :=
  match s with
  | EmptyString => [cur]
  | String c rest =>
      match skip with
      | S n => split_from sep n cur rest
      | O =>
          if String.prefix sep s
          then cur :: split_from sep (String.length sep - 1) "" rest
          else split_from sep 0 (cur +:+ String c "") rest
      end
  end.

Definition split (sep s : string) : list string := split_from sep 0 "" s.

Fixpoint drop_chars (n : nat) (s : string) : string :=
  match n, s with
  | O, _ => s
  | S k, EmptyString => ""
  | S k, String _ rest => drop_chars k rest
  end.

(** The text before the first occurrence of [sep] ([s] itself when there is
    none), and the text after it. *)
Fixpoint before_first (sep s : string) : string :=
  if String.prefix sep s then ""
  else match s with
       | EmptyString => ""
       | String c rest => String c (before_first sep rest)
       end.

Fixpoint after_first (sep s : string) : string :=
  if String.prefix sep s then drop_chars (String.length sep) s
  else match s with
       | EmptyString => ""
       | String _ rest => after_first sep rest
       end.

Definition is_digit (c : ascii) : bool :=
  let n := N_of_ascii c in (48 <=? n)%N && (n <=? 57)%N.

(** The digits of an integer literal; single underscores may separate
    digits.  [after_digit] tells whether the previous character was a digit. *)
Fixpoint digits_value (acc : Z) (after_digit : bool) (s : string) : option Z :=
  match s with
  | EmptyString => if after_digit then Some acc else None
  | String c rest =>
      if is_digit c
      then digits_value (10 * acc + (Z.of_N (N_of_ascii c) - 48)) true rest
      else if Ascii.eqb c "_"
           then (if after_digit then digits_value acc false rest else None)
      else None
  end.

(** [int(s)] in base 10; [None] stands for [ValueError].  The interpreter's
    configurable cap on the number of digits is not modelled. *)
Definition py_int (s : string) : option Z :=
  match strip s with
  | EmptyString => None
  | String c rest =>
      if Ascii.eqb c "+" then digits_value 0 false rest
      else if Ascii.eqb c "-" then Z.opp <$> digits_value 0 false rest
      else digits_value 0 false (String c rest)
  end.

(** Whether every character of [s] passes [P]. *)
Fixpoint all_chars (P : ascii -> bool) (s : string) : bool :=
  match s with
  | EmptyString => true
  | String c rest => P c && all_chars P rest
  end.


Definition differs (c0 c : ascii) : bool := negb (Ascii.eqb c0 c).

(** The exceptions these handlers can see.  [ConnectTimeout] derives from both
    [ConnectionError] and [Timeout] in [requests.exceptions]. *)
Inductive pyexc : Type :=
| AttributeError (msg : string)
| TypeError (msg : string)
| BadRequest (msg : string)
| JSONDecodeError (msg : string)
| ReadTimeout (msg : string)
| ConnectTimeout (msg : string)
| ConnectionError (msg : string)
| OtherError (msg : string).

Definition exc_str (e : pyexc) : string :=
  match e with
  | AttributeError m | TypeError m | BadRequest m | JSONDecodeError m
  | ReadTimeout m | ConnectTimeout m | ConnectionError m | OtherError m => m
  end.

(** [isinstance(e, requests.exceptions.Timeout)] *)
Definition is_Timeout (e : pyexc) : bool :=
  match e with
  | ReadTimeout _ | ConnectTimeout _ => true
  | _ => false
  end.

(** [isinstance(e, requests.exceptions.ConnectionError)] *)
Definition is_ConnectionError (e : pyexc) : bool :=
  match e with
  | ConnectTimeout _ | ConnectionError _ => true
  | _ => false
  end.

End Py.

(* ===================================================================== *)
(** ** apple-dashboard-fixed.py *)
(* ===================================================================== *)

Module Dashboard.
Import Py.

(** The dict stored per node by [receive_heartbeat]. *)
Record node_info : Type := mk_node_info {
  ip : json;
  status : json;
  timestamp : json;
  devices : json;
  sensor_data : json
}.

(** One reading of [datetime.now()]. *)
Record datetime : Type := mk_datetime {
  dt_micros : Z;
  isoformat : string
}.

(** A call of [requests.post(url, json=..., timeout=...)]. *)
Record outbound : Type := mk_outbound {
  url : string;
  json_body : json;
  timeout : Z
}.

(** What [requests.post] returns; [reply_json] is [None] when the body is not
    JSON. *)
Record reply : Type := mk_reply {
  status_code : Z;
  reply_json : option json
}.

(** A Flask return value: [jsonify(payload), code]. *)
Record http_response : Type := mk_response {
  code : Z;
  payload : json
}.

(** The module globals [connected_clients] and [last_heartbeat], and the
    requests that have left the process. *)
Record world : Type := mk_world {
  connected_clients : gmap pykey node_info;
  last_heartbeat : gmap pykey datetime;
  sent : list outbound
}.

Definition initial : world :=
  {| connected_clients := ∅; last_heartbeat := ∅; sent := [] |}.

(** *** Handlers run in a state-and-exception monad *)

Definition py (A : Type) : Type := world -> (pyexc + A) * world.

Definition ret {A} (a : A) : py A := fun w => (inr a, w).

Definition raise {A} (e : pyexc) : py A := fun w => (inl e, w).

Definition bind {A B} (m : py A) (k : A -> py B) : py B :=
  fun w =>
    match m w with
    | (inl e, w') => (inl e, w')
    | (inr a, w') => k a w'
    end.

Definition try_except {A} (body : py A) (handler : pyexc -> py A) : py A :=
  fun w =>
    match body w with
    | (inl e, w') => handler e w'
    | (inr a, w') => (inr a, w')
    end.

Notation "'do' x <~ m ; k" := (bind m (fun x => k))
  (at level 10, x name, m at level 100, k at level 200).
Notation "m ;; k" := (bind m (fun _ => k))
  (at level 100, k at level 200, right associativity).

Definition lift {A} (r : pyexc + A) : py A :=
  match r with
  | inl e => raise e
  | inr a => ret a
  end.

(** [data.get(key, default)]: only a dict has the method. *)
Definition get (data : json) (key : string) (default : json) : py json :=
  match data with
  | JObj fields => ret (dict_get fields key default)
  | _ => raise (AttributeError
                  ("'" +:+ type_name data +:+ "' object has no attribute 'get'"))
  end.

Definition unhashable {A} (v : json) : py A :=
  raise (TypeError ("unhashable type: '" +:+ type_name v +:+ "'")).

(** [connected_clients[k] = info] *)
Definition set_connected_client (k : json) (info : node_info) : py unit :=
  match dict_key k with
  | None => unhashable k
  | Some key => fun w =>
      (inr tt, {| connected_clients := <[key := info]> (connected_clients w);
                  last_heartbeat := last_heartbeat w;
                  sent := sent w |})
  end.

(** [last_heartbeat[k] = t] *)
Definition set_last_heartbeat (k : json) (t : datetime) : py unit :=
  match dict_key k with
  | None => unhashable k
  | Some key => fun w =>
      (inr tt, {| connected_clients := connected_clients w;
                  last_heartbeat := <[key := t]> (last_heartbeat w);
                  sent := sent w |})
  end.

Definition read_connected_clients : py (gmap pykey node_info) :=
  fun w => (inr (connected_clients w), w).

(** [requests.post]: the request leaves, and the environment [net] decides
    what comes back. *)
Definition requests_post (net : outbound -> pyexc + reply) (o : outbound) : py reply :=
  fun w =>
    (net o, {| connected_clients := connected_clients w;
               last_heartbeat := last_heartbeat w;
               sent := sent w ++ [o] |}).

(** [response.json()] *)
Definition response_json (r : reply) : py json :=
  match reply_json r with
  | Some v => ret v
  | None => raise (JSONDecodeError "Expecting value: line 1 column 1 (char 0)")
  end.

Definition jsonify (fields : list (string * json)) : http_response :=
  {| code := 200; payload := JObj fields |}.

Definition jsonify_with (fields : list (string * json)) (c : Z) : http_response :=
  {| code := c; payload := JObj fields |}.

(** [POST /api/heartbeat].  [request_json] is the outcome of
    [request.get_json()]; [seen] and [acked] are the two clock readings. *)
Definition receive_heartbeat (request_json : pyexc + json) (seen acked : datetime)
  : py http_response :=
  try_except
    (do data <~ lift request_json;
     do node_name <~ get data "node" JNull;
     (if truthy node_name then
        do v_ip <~ get data "ip" JNull;
        do v_status <~ get data "status" JNull;
        do v_timestamp <~ get data "timestamp" JNull;
        do v_devices <~ get data "devices" (JArr []);
        do v_sensor_data <~ get data "sensor_data" (JObj []);
        set_connected_client node_name
          {| ip := v_ip; status := v_status; timestamp := v_timestamp;
             devices := v_devices; sensor_data := v_sensor_data |} ;;
        set_last_heartbeat node_name seen
      else ret tt) ;;
     ret (jsonify [("status", JStr "received");
                   ("timestamp", JStr (isoformat acked))]))
    (fun e => ret (jsonify_with [("status", JStr "error");
                                 ("message", JStr (exc_str e))] 500)).

(** How [json.dumps] writes a key; a key stored as a bool is written as the
    integer it equals. *)
Definition key_text (k : pykey) : string :=
  match k with
  | KNone => "null"
  | KInt z => Z_to_string z
  | KStr s => s
  end.

Definition node_info_json (n : node_info) : json :=
  JObj [("ip", ip n); ("status", status n); ("timestamp", timestamp n);
        ("devices", devices n); ("sensor_data", sensor_data n)].

Definition key_json (k : pykey) : json :=
  match k with
  | KNone => JNull
  | KInt z => JInt z
  | KStr s => JStr s
  end.

Definition clients_json (m : gmap pykey node_info) : json :=
  JObj ((fun kv => (key_text (fst kv), node_info_json (snd kv))) <$> map_to_list m).

(** [len(connected_clients)], the fleet size reported by [/api/status]. *)
Definition count (w : world) : Z := Z.of_nat (size (connected_clients w)).

(** [GET /api/status]; [uptime] is the reading of [time.time()]. *)
Definition get_status (now : datetime) (uptime : json) : py http_response :=
  do clients <~ read_connected_clients;
  ret (jsonify [("ap_status", JStr "online");
                ("connected_clients", clients_json clients);
                ("client_count", JInt (Z.of_nat (size clients)));
                ("timestamp", JStr (isoformat now));
                ("uptime", uptime)]).

(** [GET /api/nodes] *)
Definition list_nodes (now : datetime) : py http_response :=
  do clients <~ read_connected_clients;
  ret (jsonify [("nodes", JArr (key_json <$> (fst <$> map_to_list clients)));
                ("details", clients_json clients);
                ("timestamp", JStr (isoformat now))]).

(** [POST /api/led/<node_name>/toggle] *)
Definition toggle_led (net : outbound -> pyexc + reply) (now : datetime)
    (node_name : string) : py http_response :=
  do clients <~ read_connected_clients;
  match clients !! KStr node_name with
  | None =>
      ret (jsonify_with [("success", JBool false);
                         ("message", JStr ("Node " +:+ node_name +:+ " not connected"))]
             404)
  | Some info =>
      let node_ip := ip info in
      if negb (truthy node_ip) then
        ret (jsonify_with [("success", JBool false);
                           ("message", JStr ("No IP address for node " +:+ node_name))]
               400)
      else
        try_except
          (do response <~ requests_post net
                 {| url := "http://" +:+ py_str node_ip +:+ ":5000/" +:+ node_name
                           +:+ "/api/v1/actuators/led";
                    json_body := JObj [("state", JStr "toggle")];
                    timeout := 5 |};
           if status_code response =? 200 then
             do data <~ response_json response;
             do state <~ get data "state" (JStr "unknown");
             ret (jsonify [("success", JBool true);
                           ("state", state);
                           ("node", JStr node_name);
                           ("timestamp", JStr (isoformat now))])
           else
             ret (jsonify_with
                    [("success", JBool false);
                     ("message", JStr ("Node responded with status "
                                       +:+ Z_to_string (status_code response)))]
                    (status_code response)))
          (fun e =>
             if is_Timeout e then
               ret (jsonify_with
                      [("success", JBool false);
                       ("message", JStr ("Timeout connecting to " +:+ node_name))]
                      408)
             else if is_ConnectionError e then
               ret (jsonify_with
                      [("success", JBool false);
                       ("message", JStr ("Cannot connect to " +:+ node_name
                                         +:+ " at " +:+ py_str node_ip))]
                      503)
             else
               ret (jsonify_with
                      [("success", JBool false);
                       ("message", JStr ("Error: " +:+ exc_str e))]
                      500))
  end.

(** The requests the server answers, with what the environment supplies to
    each. *)
Inductive request : Type :=
| Heartbeat (request_json : pyexc + json) (seen acked : datetime)
| Status (now : datetime) (uptime : json)
| Nodes (now : datetime)
| ToggleLed (net : outbound -> pyexc + reply) (now : datetime) (node_name : string).

(** Flask answers 500 when a view raises. *)
Definition internal_server_error : http_response :=
  {| code := 500; payload := JNull |}.

(** One request, from arrival to answer. *)
Definition serve (r : request) (w : world) : http_response * world :=
  let view :=
    match r with
    | Heartbeat body seen acked => receive_heartbeat body seen acked
    | Status now uptime => get_status now uptime
    | Nodes now => list_nodes now
    | ToggleLed net now node_name => toggle_led net now node_name
    end in
  match view w with
  | (inr resp, w') => (resp, w')
  | (inl _, w') => (internal_server_error, w')
  end.

Fixpoint serve_all (rs : list request) (w : world) : world :=
  match rs with
  | [] => w
  | r :: rest => serve_all rest (snd (serve r w))
  end.

(** The registry key that the body of a heartbeat announces, if any. *)
Definition identity (fields : list (string * json)) : option pykey :=
  let node := dict_get fields "node" JNull in
  if truthy node then dict_key node else None.

(** The descriptor that a heartbeat body describes. *)
Definition descriptor (fields : list (string * json)) : node_info :=
  {| ip := dict_get fields "ip" JNull;
     status := dict_get fields "status" JNull;
     timestamp := dict_get fields "timestamp" JNull;
     devices := dict_get fields "devices" (JArr []);
     sensor_data := dict_get fields "sensor_data" (JObj []) |}.

(** A heartbeat whose body is the JSON object [fields]. *)
Definition heartbeat_of (h : list (string * json) * datetime * datetime) : request :=
  let '(fields, seen, acked) := h in Heartbeat (inr (JObj fields)) seen acked.

(** The answer to a heartbeat that was accepted. *)
Definition acknowledgment (acked : datetime) : http_response :=
  {| code := 200;
     payload := JObj [("status", JStr "received");
                      ("timestamp", JStr (isoformat acked))] |}.

(** The [node] field of a parsed body; [JNull] when there is none. *)
Definition node_field (data : json) : json :=
  match data with
  | JObj fields => dict_get fields "node" JNull
  | _ => JNull
  end.

(** Every field of the remote payload, the success flag apart, reaches the
    caller unchanged. *)
Definition forwards_fields (remote : list (string * json)) (out : json) : Prop :=
  exists fields, out = JObj fields /\
    forall k v, In (k, v) remote -> k <> "success" ->
      dict_get fields k JNull = v.

(** The request that [toggle_led] sends to the node stored as [info]. *)
Definition led_request (node_name : string) (info : node_info) : outbound :=
  {| url := "http://" +:+ py_str (ip info) +:+ ":5000/" +:+ node_name
            +:+ "/api/v1/actuators/led";
     json_body := JObj [("state", JStr "toggle")];
     timeout := 5 |}.

(** A failure answer: [success] false and a message. *)
Definition failure (c : Z) (message : string) : http_response :=
  {| code := c;
     payload := JObj [("success", JBool false); ("message", JStr message)] |}.

(** A small fleet to evaluate the handlers on. *)
Definition demo_time : datetime :=
  {| dt_micros := 1700000000000000; isoformat := "2023-11-14T22:13:20" |}.

Definition demo_fields : list (string * json) :=
  [("node", JStr "pumpkin"); ("ip", JStr "192.168.4.11");
   ("timestamp", JStr "2023-11-14T22:13:19"); ("status", JStr "online");
   ("devices", JArr [JStr "led_1"; JStr "led_2"]); ("sensor_data", JObj [])].

Definition demo_world : world :=
  serve_all [heartbeat_of (demo_fields, demo_time, demo_time)] initial.

Definition demo_refused (o : outbound) : pyexc + reply :=
  inl (ConnectionError "Connection refused").

(** What the LED endpoint of a client answers to a toggle. *)
Definition demo_remote_toggled : list (string * json) :=
  [("success", JBool true);
   ("state", JStr "on");
   ("message", JStr "LED led_1 toggled on");
   ("device", JStr "led_1");
   ("timestamp", JStr "2023-11-14T22:13:21")].

Definition demo_answers (remote : list (string * json)) (o : outbound)
  : pyexc + reply :=
  inr {| status_code := 200; reply_json := Some (JObj remote) |}.

End Dashboard.

(* ===================================================================== *)
(** ** esp32_monitor_logger.py *)
(* ===================================================================== *)

Module Esp32Logger.
Import Py.

(** The dict [event_data] of [detect_events]. *)
Record event_data : Type := mk_event {
  timestamp : string;
  event_type : string;
  primary_ap_status : string;
  backup_ap_status : string;
  active_ap_mac : string;
  signal_strength : Z;
  failover_detected : bool;
  details : string
}.

Inductive cell : Type :=
| CStr (s : string)
| CInt (z : Z)
| CBool (b : bool).

(** The three files of the logger: what has been written to each, oldest
    first.  [events_log] holds the rows given to [csv.writer]. *)
Record logs : Type := mk_logs {
  raw_log : list string;
  events_log : list (list cell);
  failover_log : list string
}.

Definition csv_header : list cell :=
  [CStr "timestamp"; CStr "event_type"; CStr "primary_ap_status";
   CStr "backup_ap_status"; CStr "active_ap_mac"; CStr "signal_strength";
   CStr "failover_detected"; CStr "details"].

(** [init_csv_log], on the fresh files of [__init__]. *)
Definition init_csv_log : logs :=
  {| raw_log := []; events_log := [csv_header]; failover_log := [] |}.

Definition csv_row (e : event_data) : list cell :=
  [CStr (timestamp e); CStr (event_type e); CStr (primary_ap_status e);
   CStr (backup_ap_status e); CStr (active_ap_mac e);
   CInt (signal_strength e); CBool (failover_detected e);
   CStr (details e)].

Definition log_event_csv (e : event_data) (l : logs) : logs :=
  {| raw_log := raw_log l;
     events_log := events_log l ++ [csv_row e];
     failover_log := failover_log l |}.

Definition set_event_type (v : string) (e : event_data) : event_data :=
  {| timestamp := timestamp e; event_type := v;
     primary_ap_status := primary_ap_status e;
     backup_ap_status := backup_ap_status e;
     active_ap_mac := active_ap_mac e;
     signal_strength := signal_strength e;
     failover_detected := failover_detected e; details := details e |}.

Definition set_primary_ap_status (v : string) (e : event_data) : event_data :=
  {| timestamp := timestamp e; event_type := event_type e;
     primary_ap_status := v;
     backup_ap_status := backup_ap_status e;
     active_ap_mac := active_ap_mac e;
     signal_strength := signal_strength e;
     failover_detected := failover_detected e; details := details e |}.

Definition set_backup_ap_status (v : string) (e : event_data) : event_data :=
  {| timestamp := timestamp e; event_type := event_type e;
     primary_ap_status := primary_ap_status e;
     backup_ap_status := v;
     active_ap_mac := active_ap_mac e;
     signal_strength := signal_strength e;
     failover_detected := failover_detected e; details := details e |}.

Definition set_active_ap_mac (v : string) (e : event_data) : event_data :=
  {| timestamp := timestamp e; event_type := event_type e;
     primary_ap_status := primary_ap_status e;
     backup_ap_status := backup_ap_status e;
     active_ap_mac := v;
     signal_strength := signal_strength e;
     failover_detected := failover_detected e; details := details e |}.

Definition set_signal_strength (v : Z) (e : event_data) : event_data :=
  {| timestamp := timestamp e; event_type := event_type e;
     primary_ap_status := primary_ap_status e;
     backup_ap_status := backup_ap_status e;
     active_ap_mac := active_ap_mac e;
     signal_strength := v;
     failover_detected := failover_detected e; details := details e |}.

Definition set_failover_detected (v : bool) (e : event_data) : event_data :=
  {| timestamp := timestamp e; event_type := event_type e;
     primary_ap_status := primary_ap_status e;
     backup_ap_status := backup_ap_status e;
     active_ap_mac := active_ap_mac e;
     signal_strength := signal_strength e;
     failover_detected := v; details := details e |}.

Definition write_failover (chunks : list string) (l : logs) : logs :=
  {| raw_log := raw_log l; events_log := events_log l;
     failover_log := failover_log l ++ chunks |}.

Definition dashes : string := "--------------------------------------------------".

Definition newline : string := String (ascii_of_N 10) "".

(** The first chain of [if]/[elif]: the event kind, and the failover file. *)
Definition classify (line ts : string) (st : event_data * logs) : event_data * logs :=
  let '(e, l) := st in
  if contains "FAILOVER DETECTED" line then
    (set_failover_detected true (set_event_type "failover" e),
     write_failover [ts +:+ " | FAILOVER EVENT" +:+ newline;
                     "Details: " +:+ line +:+ newline;
                     dashes +:+ newline] l)
  else if contains "Primary AP" line then
    if contains "online" (lower line) then
      (set_event_type "primary_ap_online" (set_primary_ap_status "online" e), l)
    else if contains "offline" (lower line) then
      (set_event_type "primary_ap_offline" (set_primary_ap_status "offline" e), l)
    else (e, l)
  else if contains "Backup AP" line then
    if contains "online" (lower line) then
      (set_event_type "backup_ap_online" (set_backup_ap_status "online" e), l)
    else if contains "offline" (lower line) then
      (set_event_type "backup_ap_offline" (set_backup_ap_status "offline" e), l)
    else (e, l)
  else if contains "Apple network found" line then
    (set_event_type "apple_network_detected" e, l)
  else if contains "No Apple networks found" line then
    (set_event_type "apple_network_lost" e, l)
  else (e, l).

(** The guarded [try] that reads the signal strength; every exception of the
    body ([IndexError], [ValueError]) ends in [pass]. *)
Definition extract_signal (line : string) (e : event_data) : event_data :=
  if contains "Signal:" line && contains "dBm" line then
    match split "Signal:" line !! 1%nat with
    | None => e
    | Some after =>
        match split "dBm" after !! 0%nat with
        | None => e
        | Some before =>
            match py_int (strip before) with
            | None => e
            | Some v => set_signal_strength v e
            end
        end
    end
  else e.

Definition extract_mac (line : string) (e : event_data) : event_data :=
  if contains "BSSID:" line then
    match split "BSSID:" line !! 1%nat with
    | None => e
    | Some after => set_active_ap_mac (strip after) e
    end
  else e.

(** [detect_events(line, timestamp)].  The result carries the final value of
    the local [event_data] beside the files. *)
Definition detect_events (line ts : string) (l : logs) : event_data * logs :=
  let event0 :=
    {| timestamp := ts; event_type := "unknown";
       primary_ap_status := "unknown"; backup_ap_status := "unknown";
       active_ap_mac := ""; signal_strength := 0;
       failover_detected := false; details := line |} in
  let '(e1, l1) := classify line ts (event0, l) in
  let e2 := extract_signal line e1 in
  let e3 := extract_mac line e2 in
  if negb (String.eqb (event_type e3) "unknown")
  then (e3, log_event_csv e3 l1)
  else (e3, l1).

(** [process_line(line)]; [ts] is the reading of the clock.  Console output
    is not part of the state. *)
Definition process_line (line ts : string) (l : logs) : logs :=
  if String.eqb line "" then l
  else
    let l1 := {| raw_log := raw_log l ++ [ts +:+ " | " +:+ line +:+ newline];
                 events_log := events_log l;
                 failover_log := failover_log l |} in
    snd (detect_events line ts l1).

(** Whether one of the five marker phrases of the classifier occurs. *)
Definition matches_pattern (line : string) : bool :=
  contains "FAILOVER DETECTED" line || contains "Primary AP" line
  || contains "Backup AP" line || contains "Apple network found" line
  || contains "No Apple networks found" line.


End Esp32Logger.

(* ===================================================================== *)
(** ** example-client_app.py: DeviceManager *)
(* ===================================================================== *)

Module Client.
Import Py.

(** The gpiozero objects held in [self.devices], with the part of their
    state that [control_led] reads. *)
Inductive device : Type :=
| LED (is_lit : bool)
| Button
| PWMOutputDevice (is_active : bool).

(** A [threading.Timer] that has been started: it calls
    [control_led(led, "off")] once the clock reaches [due], unless [finished]
    was set before ([cancel()] sets it, and so does the run itself). *)
Record timer : Type := mk_timer {
  led : string;
  due : Z;
  finished : bool
}.

(** The [DeviceManager] fields, [system_config["led_auto_off_time"]], every
    timer object created so far (a timer is named by its position) and the
    clock, in seconds. *)
Record manager : Type := mk_manager {
  devices : gmap string device;
  last_led_state : gmap string bool;
  led_timers : gmap string nat;
  timers : list timer;
  led_auto_off_time : Z;
  clock : Z
}.

Definition no_attribute (class attr : string) : pyexc :=
  AttributeError ("'" +:+ class +:+ "' object has no attribute '" +:+ attr +:+ "'").

Definition dev_on (d : device) : pyexc + device :=
  match d with
  | LED _ => inr (LED true)
  | PWMOutputDevice _ => inr (PWMOutputDevice true)
  | Button => inl (no_attribute "Button" "on")
  end.

Definition dev_off (d : device) : pyexc + device :=
  match d with
  | LED _ => inr (LED false)
  | PWMOutputDevice _ => inr (PWMOutputDevice false)
  | Button => inl (no_attribute "Button" "off")
  end.

(** [hasattr(led, "is_lit") and led.is_lit] *)
Definition dev_is_lit (d : device) : bool :=
  match d with
  | LED b => b
  | _ => false
  end.

(** [blink] returns at once; its thread starts with the on phase. *)
Definition dev_blink (d : device) : pyexc + device :=
  match d with
  | LED _ => inr (LED true)
  | PWMOutputDevice _ => inr (PWMOutputDevice true)
  | Button => inl (no_attribute "Button" "blink")
  end.

Definition dev_pulse (d : device) : pyexc + device :=
  match d with
  | LED _ => inl (no_attribute "LED" "pulse")
  | PWMOutputDevice b => inr (PWMOutputDevice b)
  | Button => inl (no_attribute "Button" "pulse")
  end.

Definition set_device (name : string) (d : device) (m : manager) : manager :=
  {| devices := <[name := d]> (devices m);
     last_led_state := last_led_state m;
     led_timers := led_timers m;
     timers := timers m;
     led_auto_off_time := led_auto_off_time m;
     clock := clock m |}.

Definition set_last_led_state (name : string) (b : bool) (m : manager) : manager :=
  {| devices := devices m;
     last_led_state := <[name := b]> (last_led_state m);
     led_timers := led_timers m;
     timers := timers m;
     led_auto_off_time := led_auto_off_time m;
     clock := clock m |}.

Definition finish (t : timer) : timer :=
  {| led := led t; due := due t; finished := true |}.

(** [_clear_auto_off_timer] *)
Definition _clear_auto_off_timer (led_name : string) (m : manager) : manager :=
  match led_timers m !! led_name with
  | Some h =>
      {| devices := devices m;
         last_led_state := last_led_state m;
         led_timers := delete led_name (led_timers m);
         timers := alter finish h (timers m);
         led_auto_off_time := led_auto_off_time m;
         clock := clock m |}
  | None => m
  end.

(** [_set_auto_off_timer] *)
Definition _set_auto_off_timer (led_name : string) (m : manager) : manager :=
  if 0 <? led_auto_off_time m then
    let m1 := _clear_auto_off_timer led_name m in
    {| devices := devices m1;
       last_led_state := last_led_state m1;
       led_timers := <[led_name := length (timers m1)]> (led_timers m1);
       timers := timers m1 ++
                 [{| led := led_name;
                     due := clock m1 + led_auto_off_time m1;
                     finished := false |}];
       led_auto_off_time := led_auto_off_time m1;
       clock := clock m1 |}
  else m.

Definition result (ok : bool) (state : option string) (message : string) : json :=
  JObj (("success", JBool ok)
        :: match state with
           | Some st => [("state", JStr st)]
           | None => []
           end
        ++ [("message", JStr message)]).

(** [control_led(led_name, action)], [value] left at its default. *)
Definition control_led (led_name action : string) (m : manager) : json * manager :=
  match devices m !! led_name with
  | None => (result false None ("LED " +:+ led_name +:+ " not available"), m)
  | Some dev =>
      if String.eqb action "on" then
        match dev_on dev with
        | inl e => (result false None (exc_str e), m)
        | inr dev' =>
            (result true (Some "on") ("LED " +:+ led_name +:+ " turned on"),
             _set_auto_off_timer led_name
               (set_last_led_state led_name true (set_device led_name dev' m)))
        end
      else if String.eqb action "off" then
        match dev_off dev with
        | inl e => (result false None (exc_str e), m)
        | inr dev' =>
            (result true (Some "off") ("LED " +:+ led_name +:+ " turned off"),
             _clear_auto_off_timer led_name
               (set_last_led_state led_name false (set_device led_name dev' m)))
        end
      else if String.eqb action "toggle" then
        if dev_is_lit dev then
          match dev_off dev with
          | inl e => (result false None (exc_str e), m)
          | inr dev' =>
              (result true (Some "off") ("LED " +:+ led_name +:+ " toggled off"),
               _clear_auto_off_timer led_name
                 (set_last_led_state led_name false (set_device led_name dev' m)))
          end
        else
          match dev_on dev with
          | inl e => (result false None (exc_str e), m)
          | inr dev' =>
              (result true (Some "on") ("LED " +:+ led_name +:+ " toggled on"),
               _set_auto_off_timer led_name
                 (set_last_led_state led_name true (set_device led_name dev' m)))
          end
      else if String.eqb action "blink" then
        match dev_blink dev with
        | inl e => (result false None (exc_str e), m)
        | inr dev' =>
            (result true (Some "blinking")
               ("LED " +:+ led_name +:+ " blinking for 1.0s"),
             set_device led_name dev' m)
        end
      else if String.eqb action "pulse" then
        match dev_pulse dev with
        | inl e => (result false None (exc_str e), m)
        | inr dev' =>
            (result true (Some "pulsing") ("LED " +:+ led_name +:+ " pulsing"),
             set_device led_name dev' m)
        end
      else (result false None ("Unknown action: " +:+ action), m)
  end.

Definition set_finished (h : nat) (m : manager) : manager :=
  {| devices := devices m;
     last_led_state := last_led_state m;
     led_timers := led_timers m;
     timers := alter finish h (timers m);
     led_auto_off_time := led_auto_off_time m;
     clock := clock m |}.

(** [Timer.run] of timer [h] once its interval has passed. *)
Definition fire (h : nat) (m : manager) : manager :=
  match timers m !! h with
  | Some t =>
      if finished t || (clock m <? due t) then m
      else set_finished h (snd (control_led (led t) "off" m))
  | None => m
  end.

Definition set_clock (now : Z) (m : manager) : manager :=
  {| devices := devices m;
     last_led_state := last_led_state m;
     led_timers := led_timers m;
     timers := timers m;
     led_auto_off_time := led_auto_off_time m;
     clock := now |}.

(** One second passes: the timers that are due run, oldest first. *)
Definition tick (m : manager) : manager :=
  foldl (fun acc h => fire h acc) (set_clock (clock m + 1) m)
        (seq 0 (length (timers m))).

Fixpoint wait (n : nat) (m : manager) : manager :=
  match n with
  | O => m
  | S k => wait k (tick m)
  end.

(** The [led_auto_off_time] branch of [update_config] for an integer value. *)
Definition update_led_auto_off_time (v : Z) (m : manager) : manager :=
  {| devices := devices m;
     last_led_state := last_led_state m;
     led_timers := led_timers m;
     timers := timers m;
     led_auto_off_time := Z.max 1 v;
     clock := clock m |}.

Inductive event : Type :=
| Call (led_name action : string)
| Tick
| PutAutoOff (v : Z).

Definition step (e : event) (m : manager) : manager :=
  match e with
  | Call led_name action => snd (control_led led_name action m)
  | Tick => tick m
  | PutAutoOff v => update_led_auto_off_time v m
  end.

Definition run (es : list event) (m : manager) : manager :=
  foldl (fun acc e => step e acc) m es.

Definition is_LED (d : device) : bool :=
  match d with
  | LED _ => true
  | _ => false
  end.

(** [DeviceManager()] once [init_devices] has created [devs]; the clock
    starts at [now]. *)
Definition new_manager (devs : gmap string device) (now : Z) : manager :=
  {| devices := devs;
     last_led_state :=
       (fun _ => false) <$> filter (fun kv => Is_true (is_LED (snd kv))) devs;
     led_timers := ∅;
     timers := [];
     led_auto_off_time := 300;
     clock := now |}.

(** The devices of a board on which every pin could be claimed. *)
Definition board : gmap string device :=
  <["led_1" := LED false]> (<["led_2" := LED false]>
    (<["button_1" := Button]> (<["pwm_1" := PWMOutputDevice false]> ∅))).

(** Every timer still to run is the one its LED has on record. *)
Definition timers_on_record (m : manager) : Prop :=
  forall (h : nat) (t : timer),
    timers m !! h = Some t -> finished t = false ->
    led_timers m !! led t = Some h.

Definition lit (name : string) (m : manager) : bool :=
  match devices m !! name with
  | Some d => dev_is_lit d
  | None => false
  end.

(** The states the agent can be in. *)
Definition reachable (m : manager) : Prop :=
  exists devs now es, m = run es (new_manager devs now).

(** [name] is a lit LED whose timer [h], due at [T], is still to run. *)
Definition armed (name : string) (h : nat) (T : Z) (m : manager) : Prop :=
  devices m !! name = Some (LED true) /\
  led_timers m !! name = Some h /\
  timers m !! h = Some {| led := name; due := T; finished := false |}.

(** [name] is dark and has no timer on record. *)
Definition idle (name : string) (m : manager) : Prop :=
  lit name m = false /\ led_timers m !! name = None.

(** A board with one LED lit two seconds ago. *)
Definition demo_manager : manager :=
  run [Call "led_1" "on"; Tick; Tick] (new_manager board 0).

End Client.

(* ===================================================================== *)
(** ** More of the three programs *)
(* ===================================================================== *)

(** *** [str.split] with a bound *)

Module PySplit.
Import Py.

(** [s.split(sep, maxsplit)] for a non-empty [sep]: as [split_from], but once
    [maxsplit] cuts are made the rest of the text is the last piece. *)
Fixpoint split_upto (sep : string) (maxsplit skip : nat) (cur s : string)
  : list string :=
  match s with
  | EmptyString => [cur]
  | String c rest =>
      match skip with
      | S n => split_upto sep maxsplit n cur rest
      | O =>
          match maxsplit with
          | O => [cur +:+ s]
          | S k =>
              if String.prefix sep s
              then cur :: split_upto sep k (String.length sep - 1) "" rest
              else split_upto sep maxsplit 0 (cur +:+ String c "") rest
          end
      end
  end.

End PySplit.

(** *** apple-dashboard-fixed.py: what a heartbeat is refused for *)

Module DashboardCases.
Import Py Dashboard.

(** Whether [receive_heartbeat] gets through its [try] block. *)
Definition refused (body : pyexc + json) : bool :=
  match body with
  | inl _ => true
  | inr (JObj fields) =>
      let node := dict_get fields "node" JNull in
      truthy node && match dict_key node with Some _ => false | None => true end
  | inr _ => true
  end.

(** Answers of a node, to evaluate the relay on. *)
Definition demo_no_led (o : outbound) : pyexc + reply :=
  inr {| status_code := 404;
         reply_json := Some (JObj [("success", JBool false);
                                   ("message", JStr "No LED devices available")]) |}.

Definition demo_html (o : outbound) : pyexc + reply :=
  inr {| status_code := 200; reply_json := None |}.

(** A heartbeat from a new address. *)
Definition demo_moved : list (string * json) :=
  [("node", JStr "pumpkin"); ("ip", JStr "192.168.4.23")].

End DashboardCases.

(** *** esp32_monitor_logger.py: [monitor_loop] and whole runs *)

Module Esp32Monitor.
Import Py PySplit Esp32Logger.

(** The state of [monitor_loop]: the local [buffer], the files, and how many
    lines have been given a timestamp. *)
Record monitor : Type := mk_monitor {
  buffer : string;
  files : logs;
  stamped : nat
}.

(** One pass of the inner [while]: [line, buffer = buffer.split('\n', 1)],
    then [process_line(line.strip())].  [stamps n] is the clock reading that
    the [n]-th non-empty line receives.  [None] when the loop condition
    fails. *)
Definition take_line (stamps : nat -> string) (st : monitor) : option monitor :=
  if contains newline (buffer st) then
    match split_upto newline 1 0 "" (buffer st) with
    | [line; rest] =>
        let text := strip line in
        Some {| buffer := rest;
                files := process_line text (stamps (stamped st)) (files st);
                stamped := if String.eqb text "" then stamped st
                           else S (stamped st) |}
    | _ => None
    end
  else None.

(** The inner [while], run for at most [fuel] passes. *)
Fixpoint drain (fuel : nat) (stamps : nat -> string) (st : monitor) : monitor :=
  match fuel with
  | O => st
  | S f =>
      match take_line stamps st with
      | Some st' => drain f stamps st'
      | None => st
      end
  end.

(** One pass of the outer loop in which [data] was read and decoded. *)
Definition monitor_read (stamps : nat -> string) (data : string) (st : monitor)
  : monitor :=
  let st1 := {| buffer := buffer st +:+ data; files := files st;
                stamped := stamped st |} in
  drain (S (String.length (buffer st1))) stamps st1.

Definition monitor_start : monitor :=
  {| buffer := ""; files := init_csv_log; stamped := 0 |}.

(** [process_line] on each line of a run, with its clock reading. *)
Definition process_all (inputs : list (string * string)) (l : logs) : logs :=
  foldl (fun acc input => process_line (fst input) (snd input) acc) l inputs.

(** The event that [detect_events] builds for a line. *)
Definition event_of (input : string * string) : event_data :=
  fst (detect_events (fst input) (snd input) init_csv_log).

Definition classified (e : event_data) : bool :=
  negb (String.eqb (event_type e) "unknown").

Definition event_kinds : list string :=
  ["failover"; "primary_ap_online"; "primary_ap_offline"; "backup_ap_online";
   "backup_ap_offline"; "apple_network_detected"; "apple_network_lost";
   "unknown"].


(** The [event_data] that [detect_events] starts from. *)
Definition blank (line ts : string) : event_data :=
  {| timestamp := ts; event_type := "unknown";
     primary_ap_status := "unknown"; backup_ap_status := "unknown";
     active_ap_mac := ""; signal_strength := 0;
     failover_detected := false; details := line |}.

End Esp32Monitor.

(** *** example-client_app.py: invariants of the timers *)

Module ClientTimers.
Import Py Client.

(** The timers that are still to run, all due later than [clock]; and those
    named in [done] later than [clock], strictly. *)
Definition not_overdue (done : list nat) (m : manager) : Prop :=
  forall h t, timers m !! h = Some t -> finished t = false ->
    clock m <= due t /\ (h ∈ done -> clock m < due t).

(** An LED has a timer on record exactly when its last commanded state is
    on. *)
Definition books_agree (m : manager) : Prop :=
  forall name, is_Some (led_timers m !! name) <-> last_led_state m !! name = Some true.

End ClientTimers.

(** *** example-client_app.py: configuration, LED endpoint, heartbeat *)

Module ClientApi.
Import Py.

(** The dict [system_config]. *)
Record system_config : Type := mk_config {
  heartbeat_interval : Z;
  sensor_poll_interval : Z;
  led_auto_off_time : Z;
  debug_mode : bool
}.

(** Its value when the module is loaded. *)
Definition default_config : system_config :=
  {| heartbeat_interval := 30; sensor_poll_interval := 5;
     led_auto_off_time := 300; debug_mode := false |}.

(** [int(value)] on a parsed value. *)
Inductive int_result : Type :=
| IntValue (z : Z)
| IntValueError
| IntTypeError.

Definition int_of_json (v : json) : int_result :=
  match v with
  | JInt z => IntValue z
  | JBool b => IntValue (if b then 1 else 0)
  | JStr s => match py_int s with
              | Some z => IntValue z
              | None => IntValueError
              end
  | JNull | JArr _ | JObj _ => IntTypeError
  end.

(** A Flask answer. *)
Record answer : Type := mk_answer {
  code : Z;
  payload : json
}.

(** How the loop of [update_config] ends: it runs through, [abort] is
    called, or an exception leaves the view. *)
Inductive ending : Type :=
| Completed (updated_keys : list string)
| Aborted (status : Z) (description : string)
| Crashed.

Definition interval_keys : list string :=
  ["heartbeat_interval"; "sensor_poll_interval"; "led_auto_off_time"].

Definition valid_keys : list string :=
  ["heartbeat_interval"; "sensor_poll_interval"; "led_auto_off_time"; "debug_mode"].

Definition is_in (key : string) (keys : list string) : bool :=
  existsb (String.eqb key) keys.

(** [system_config[key] = z] for one of the interval keys. *)
Definition set_interval (key : string) (z : Z) (cfg : system_config) : system_config :=
  if String.eqb key "heartbeat_interval" then
    {| heartbeat_interval := z;
       sensor_poll_interval := sensor_poll_interval cfg;
       led_auto_off_time := led_auto_off_time cfg;
       debug_mode := debug_mode cfg |}
  else if String.eqb key "sensor_poll_interval" then
    {| heartbeat_interval := heartbeat_interval cfg;
       sensor_poll_interval := z;
       led_auto_off_time := led_auto_off_time cfg;
       debug_mode := debug_mode cfg |}
  else
    {| heartbeat_interval := heartbeat_interval cfg;
       sensor_poll_interval := sensor_poll_interval cfg;
       led_auto_off_time := z;
       debug_mode := debug_mode cfg |}.

Definition set_debug_mode (b : bool) (cfg : system_config) : system_config :=
  {| heartbeat_interval := heartbeat_interval cfg;
     sensor_poll_interval := sensor_poll_interval cfg;
     led_auto_off_time := led_auto_off_time cfg;
     debug_mode := b |}.

(** The [for key, value in data.items()] loop. *)
Fixpoint update_items (items : list (string * json)) (cfg : system_config)
    (updated : list string) : ending * system_config :=
  match items with
  | [] => (Completed updated, cfg)
  | (key, value) :: rest =>
      if is_in key valid_keys then
        if is_in key interval_keys then
          match int_of_json value with
          | IntValue z =>
              update_items rest (set_interval key (Z.max 1 z) cfg) (updated ++ [key])
          | IntValueError =>
              (Aborted 400 ("Invalid value for " +:+ key +:+ ": must be integer"), cfg)
          | IntTypeError => (Crashed, cfg)
          end
        else if String.eqb key "debug_mode" then
          update_items rest (set_debug_mode (truthy value) cfg) (updated ++ [key])
        else update_items rest cfg updated
      else update_items rest cfg updated
  end.

Definition config_json (cfg : system_config) : json :=
  JObj [("heartbeat_interval", JInt (heartbeat_interval cfg));
        ("sensor_poll_interval", JInt (sensor_poll_interval cfg));
        ("led_auto_off_time", JInt (led_auto_off_time cfg));
        ("debug_mode", JBool (debug_mode cfg))].

Definition bad_request (description now : string) : answer :=
  {| code := 400;
     payload := JObj [("error", JStr "Bad Request"); ("message", JStr description);
                      ("timestamp", JStr now)] |}.

Definition internal_error (now : string) : answer :=
  {| code := 500;
     payload := JObj [("error", JStr "Internal Server Error");
                      ("message", JStr "An unexpected error occurred");
                      ("timestamp", JStr now)] |}.

(** [data or {}] *)
Definition or_empty (data : json) : json :=
  if truthy data then data else JObj [].

(** [PUT /<node>/api/v1/config]; [data] is what [request.get_json()]
    returned and [now] the clock reading. *)
Definition update_config (data : json) (now : string) (cfg : system_config)
  : answer * system_config :=
  match or_empty data with
  | JObj items =>
      match update_items items cfg [] with
      | (Completed updated, cfg') =>
          ({| code := 200;
              payload := JObj [("success", JBool true);
                               ("updated_keys", JArr (map JStr updated));
                               ("config", config_json cfg');
                               ("timestamp", JStr now)] |}, cfg')
      | (Aborted _ description, cfg') => (bad_request description now, cfg')
      | (Crashed, cfg') => (internal_error now, cfg')
      end
  | _ => (internal_error now, cfg)
  end.

(** What one pass of the loop assigns. *)
Inductive assignment : Type :=
| SetInterval (key : string) (z : Z)
| SetDebug (b : bool).

Definition assign (cfg : system_config) (a : assignment) : system_config :=
  match a with
  | SetInterval key z => set_interval key z cfg
  | SetDebug b => set_debug_mode b cfg
  end.

(** The assignments that the loop makes for [items], up to the item at which
    it stops; they do not depend on the configuration. *)
Fixpoint assignments (items : list (string * json)) : list assignment :=
  match items with
  | [] => []
  | (key, value) :: rest =>
      if is_in key valid_keys then
        if is_in key interval_keys then
          match int_of_json value with
          | IntValue z => SetInterval key (Z.max 1 z) :: assignments rest
          | _ => []
          end
        else if String.eqb key "debug_mode" then
          SetDebug (truthy value) :: assignments rest
        else assignments rest
      else assignments rest
  end.

(** Every interval is at least one second. *)
Definition intervals_positive (cfg : system_config) : Prop :=
  1 <= heartbeat_interval cfg /\ 1 <= sensor_poll_interval cfg /\
  1 <= led_auto_off_time cfg.

(** [control_led(led_name, action)] for an action taken from a request body:
    a value that is no string equals none of the action names. *)
Definition control_led_value (led_name : string) (action : json)
    (m : Client.manager) : json * Client.manager :=
  match action with
  | JStr s => Client.control_led led_name s m
  | _ =>
      match Client.devices m !! led_name with
      | None =>
          (Client.result false None ("LED " +:+ led_name +:+ " not available"), m)
      | Some _ =>
          (Client.result false None ("Unknown action: " +:+ py_str action), m)
      end
  end.

(** [result[key] = value] on a dict that has no such key yet. *)
Definition with_field (key : string) (value : json) (d : json) : json :=
  match d with
  | JObj fields => JObj (fields ++ [(key, value)])
  | _ => d
  end.

(** [POST /<node>/api/v1/actuators/led].  [order] is the iteration order of
    [device_manager.devices]. *)
Definition control_primary_led (order : list string) (data : json) (now : string)
    (m : Client.manager) : answer * Client.manager :=
  match or_empty data with
  | JObj fields =>
      let state := dict_get fields "state" (JStr "off") in
      match List.filter (contains "led") order with
      | [] =>
          ({| code := 404;
              payload := JObj [("success", JBool false);
                               ("message", JStr "No LED devices available")] |}, m)
      | primary_led :: _ =>
          let '(result, m') := control_led_value primary_led state m in
          ({| code := 200;
              payload := with_field "timestamp" (JStr now)
                           (with_field "device" (JStr primary_led) result) |}, m')
      end
  | _ => (internal_error now, m)
  end.

(** The device that [control_primary_led] acts on. *)
Definition primary_led (order : list string) : option string :=
  head (List.filter (contains "led") order).

(** The body that [send_heartbeat] posts. *)
Definition heartbeat_data (node_name node_ip now : string) (order : list string)
    (sensor_data system_info : json) : json :=
  JObj [("node", JStr node_name);
        ("ip", JStr node_ip);
        ("timestamp", JStr now);
        ("status", JStr "online");
        ("devices", JArr (map JStr order));
        ("sensor_data", sensor_data);
        ("system_info", system_info)].

(** The rule that [app.route] registers for the LED endpoint, and the port
    that [app.run] listens on. *)
Definition led_route (node_name : string) : string :=
  "/" +:+ node_name +:+ "/api/v1/actuators/led".

Definition flask_port : Z := 5000.

End ClientApi.

(** *** Coordinator and node together *)

Module Fleet.
Import Py.

(** The node's answer, as [requests.post] hands it to the relay. *)
Definition as_reply (a : ClientApi.answer) : pyexc + Dashboard.reply :=
  inr {| Dashboard.status_code := ClientApi.code a;
         Dashboard.reply_json := Some (ClientApi.payload a) |}.

End Fleet.

(* ===================================================================== *)
(** * Properties *)
(* ===================================================================== *)

(** ** Strings *)

Module PyFacts.
Import Py.

Lemma append_cons (c : ascii) (s t : string) :
  String c s +:+ t = String c (s +:+ t).
Proof. reflexivity. Qed.

Lemma append_empty_r (s : string) : s +:+ "" = s.
Proof.
  induction s as [|c s IH]; [reflexivity|]. now rewrite append_cons, IH.
Qed.

Lemma append_snoc (cur : string) (c : ascii) (s : string) :
  (cur +:+ String c "") +:+ s = cur +:+ String c s.
Proof.
  induction cur as [|d cur IH]; [reflexivity|]. now rewrite !append_cons, IH.
Qed.

Lemma prefix_length (sep s : string) :
  String.prefix sep s = true -> (String.length sep <= String.length s)%nat.
Proof.
  revert sep. induction s as [|c s IH]; intros [|d sep]; simpl; try lia; try discriminate.
  destruct (ascii_dec d c); [|discriminate]. intros H. apply IH in H. lia.
Qed.

Lemma prefix_nonempty_nil (sep : string) :
  sep <> "" -> String.prefix sep "" = false.
Proof. destruct sep; [congruence | reflexivity]. Qed.

Lemma split_from_skip (sep : string) (n : nat) (cur s : string) :
  (n <= String.length s)%nat ->
  split_from sep n cur s = split_from sep 0 cur (drop_chars n s).
Proof.
  revert n. induction s as [|c s IH]; intros n Hn; simpl in *.
  - destruct n; [reflexivity | lia].
  - destruct n as [|n]; [reflexivity|]. simpl. apply IH. lia.
Qed.

Lemma before_first_absent (sep s : string) :
  contains sep s = false -> before_first sep s = s.
Proof.
  induction s as [|c s IH]; simpl; intros H.
  - destruct sep; reflexivity.
  - apply orb_false_iff in H as [Hp Hc]. rewrite Hp. now rewrite IH.
Qed.

(** [split] cuts at the first separator and goes on behind it. *)
Lemma split_from_unfold (sep : string) (s cur : string) :
  sep <> "" ->
  split_from sep 0 cur s =
    if contains sep s
    then (cur +:+ before_first sep s) :: split_from sep 0 "" (after_first sep s)
    else [cur +:+ s].
Proof.
  intros Hsep. revert cur. induction s as [|c s IH]; intros cur.
  - cbn [split_from contains]. rewrite (prefix_nonempty_nil _ Hsep).
    cbn [orb]. now rewrite append_empty_r.
  - cbn [split_from contains before_first after_first].
    destruct (String.prefix sep (String c s)) eqn:Hp.
    + cbn [orb]. rewrite append_empty_r. f_equal.
      pose proof (prefix_length _ _ Hp) as Hlen.
      destruct sep as [|d sep]; [congruence|]. simpl in Hlen.
      cbn [String.length drop_chars].
      replace (S (String.length sep) - 1)%nat with (String.length sep) by lia.
      apply split_from_skip. lia.
    + cbn [orb]. rewrite IH. destruct (contains sep s).
      * now rewrite append_snoc.
      * now rewrite append_snoc.
Qed.

Lemma split_head (sep s : string) :
  sep <> "" -> split sep s !! 0%nat = Some (before_first sep s).
Proof.
  intros Hsep. unfold split. rewrite (split_from_unfold _ _ _ Hsep).
  destruct (contains sep s) eqn:Hc; simpl; [reflexivity|].
  now rewrite before_first_absent.
Qed.

Lemma split_second (sep s : string) :
  sep <> "" -> contains sep s = true ->
  split sep s !! 1%nat = Some (before_first sep (after_first sep s)).
Proof.
  intros Hsep Hc. unfold split. rewrite (split_from_unfold _ _ _ Hsep), Hc.
  simpl. apply (split_head _ _ Hsep).
Qed.

(** *** Reading integers *)


















Lemma append_assoc (a b c : string) : (a +:+ b) +:+ c = a +:+ b +:+ c.
Proof.
  induction a as [|x a IH]; [reflexivity|]. now rewrite !append_cons, IH.
Qed.

Lemma prefix_app (sep b : string) : String.prefix sep (sep +:+ b) = true.
Proof.
  induction sep as [|c sep IH]; [now destruct b|].
  rewrite append_cons. cbn [String.prefix].
  destruct (ascii_dec c c); [exact IH | congruence].
Qed.

Lemma drop_chars_app (a b : string) : drop_chars (String.length a) (a +:+ b) = b.
Proof.
  induction a as [|c a IH]; [reflexivity|]. rewrite append_cons. exact IH.
Qed.

Lemma contains_prefix (sep s : string) :
  String.prefix sep s = true -> contains sep s = true.
Proof. intros H. destruct s; cbn [contains]; now rewrite H. Qed.

Lemma contains_app (sep a b : string) : contains sep (a +:+ sep +:+ b) = true.
Proof.
  induction a as [|c a IH].
  - change ("" +:+ sep +:+ b) with (sep +:+ b).
    apply contains_prefix, prefix_app.
  - rewrite append_cons. cbn [contains]. rewrite IH. apply orb_true_r.
Qed.

Lemma after_first_app (sep b : string) : after_first sep (sep +:+ b) = b.
Proof.
  pose proof (prefix_app sep b) as Hp.
  destruct (sep +:+ b) eqn:E; cbn [after_first]; rewrite Hp, <- E;
    apply drop_chars_app.
Qed.

Lemma all_chars_app (P : ascii -> bool) (a b : string) :
  all_chars P (a +:+ b) = all_chars P a && all_chars P b.
Proof.
  induction a as [|c a IH]; [reflexivity|].
  rewrite append_cons. cbn [all_chars]. now rewrite IH, andb_assoc.
Qed.

Lemma prefix_other_head (c0 c : ascii) (sep s : string) :
  differs c0 c = true -> String.prefix (String c0 sep) (String c s) = false.
Proof.
  unfold differs. intros H. apply negb_true_iff, Ascii.eqb_neq in H.
  cbn [String.prefix]. destruct (ascii_dec c0 c); [contradiction | reflexivity].
Qed.


Lemma before_first_app (c0 : ascii) (sep s b : string) :
  all_chars (differs c0) s = true ->
  before_first (String c0 sep) (s +:+ String c0 sep +:+ b) = s.
Proof.
  induction s as [|c s IH].
  - intros _. change ("" +:+ String c0 sep +:+ b) with (String c0 (sep +:+ b)).
    cbn [before_first]. change (String c0 (sep +:+ b)) with (String c0 sep +:+ b).
    now rewrite prefix_app.
  - cbn [all_chars]. intros H. apply andb_true_iff in H as [Hc Hs].
    rewrite append_cons. cbn [before_first].
    now rewrite (prefix_other_head _ _ _ _ Hc), (IH Hs).
Qed.



End PyFacts.

(** ** The registry and the relay *)

Module DashboardFacts.
Import Py Dashboard.

Ltac py_unfold :=
  unfold receive_heartbeat, toggle_led, get_status, list_nodes, try_except,
    bind, lift, get, ret, raise, set_connected_client, set_last_heartbeat,
    unhashable, read_connected_clients, requests_post, response_json.

(** What [receive_heartbeat] does to a body that announces an identity. *)
Lemma receive_heartbeat_registers fields seen acked w k :
  identity fields = Some k ->
  receive_heartbeat (inr (JObj fields)) seen acked w =
    (inr (acknowledgment acked),
     {| connected_clients := <[k := descriptor fields]> (connected_clients w);
        last_heartbeat := <[k := seen]> (last_heartbeat w);
        sent := sent w |}).
Proof.
  unfold identity. intros Hid. py_unfold. simpl.
  destruct (truthy (dict_get fields "node" JNull)); [|discriminate].
  simpl. rewrite Hid. reflexivity.
Qed.

Lemma receive_heartbeat_skips fields seen acked w :
  truthy (dict_get fields "node" JNull) = false ->
  receive_heartbeat (inr (JObj fields)) seen acked w = (inr (acknowledgment acked), w).
Proof.
  intros Hn. py_unfold. simpl. rewrite Hn. reflexivity.
Qed.

(** A heartbeat either leaves the world as it is or stores the descriptor of
    its body under the identity it announces; it never raises. *)
Lemma receive_heartbeat_cases body seen acked w :
  exists resp w', receive_heartbeat body seen acked w = (inr resp, w') /\
    (w' = w \/
     exists fields k, body = inr (JObj fields) /\ identity fields = Some k /\
       w' = {| connected_clients := <[k := descriptor fields]> (connected_clients w);
               last_heartbeat := <[k := seen]> (last_heartbeat w);
               sent := sent w |}).
Proof.
  destruct body as [e | data].
  { do 2 eexists. split; [reflexivity | now left]. }
  destruct data as [ | b | z | s | items | fields];
    try (do 2 eexists; split; [reflexivity | now left]).
  destruct (identity fields) as [k|] eqn:Hid.
  - do 2 eexists. split; [apply (receive_heartbeat_registers _ _ _ _ _ Hid)|].
    right. eauto.
  - unfold identity in Hid.
    destruct (truthy (dict_get fields "node" JNull)) eqn:Ht.
    + do 2 eexists. split; [|now left].
      py_unfold. simpl. rewrite Ht. simpl. rewrite Hid. reflexivity.
    + do 2 eexists. split; [apply receive_heartbeat_skips; exact Ht | now left].
Qed.

Lemma toggle_led_clients net now node_name w :
  exists resp w', toggle_led net now node_name w = (inr resp, w') /\
    connected_clients w' = connected_clients w /\
    last_heartbeat w' = last_heartbeat w.
Proof.
  py_unfold. simpl.
  destruct (connected_clients w !! KStr node_name) as [info|]; [|eauto].
  destruct (truthy (ip info)); simpl; [|eauto].
  destruct (net _) as [e | r]; simpl.
  { destruct (is_Timeout e); [eauto|]. destruct (is_ConnectionError e); eauto. }
  destruct (status_code r =? 200); [|eauto].
  destruct (reply_json r) as [data|]; simpl; [|eauto].
  destruct data; simpl; eauto.
Qed.

Lemma serve_keeps_entries r w k :
  is_Some (connected_clients w !! k) ->
  is_Some (connected_clients (snd (serve r w)) !! k).
Proof.
  intros Hk. unfold serve. destruct r as [body seen acked | now up | now | net now name].
  - destruct (receive_heartbeat_cases body seen acked w) as (resp & w' & -> & Hw).
    simpl. destruct Hw as [-> | (fields & k' & _ & _ & ->)]; [exact Hk|].
    simpl. rewrite lookup_insert. case_decide; [eauto | exact Hk].
  - exact Hk.
  - exact Hk.
  - destruct (toggle_led_clients net now name w) as (resp & w' & -> & Hc & _).
    simpl. rewrite Hc. exact Hk.
Qed.

Lemma serve_all_app rs1 rs2 w :
  serve_all (rs1 ++ rs2) w = serve_all rs2 (serve_all rs1 w).
Proof. revert w. induction rs1 as [|r rs1 IH]; intros w; simpl; [reflexivity | apply IH]. Qed.

(** C1.  After any run of heartbeats that all announce the identity [k],
    the registry entry of [k] is exactly the descriptor of the body of the
    last one: each of the five fields is read from that body alone (or is
    its default), whatever the earlier heartbeats stored. *)
Theorem heartbeat_overwrites_entry
    (w : world) (k : pykey)
    (earlier : list (list (string * json) * datetime * datetime))
    (fields : list (string * json)) (seen acked : datetime) :
  Forall (fun h => identity (fst (fst h)) = Some k) earlier ->
  identity fields = Some k ->
  connected_clients
    (serve_all (map heartbeat_of (earlier ++ [(fields, seen, acked)])) w) !! k
  = Some (descriptor fields).
Proof.
  intros _ Hid. rewrite map_app, serve_all_app. simpl.
  unfold serve. rewrite (receive_heartbeat_registers _ _ _ _ _ Hid). simpl.
  apply lookup_insert_eq.
Qed.


Lemma heartbeat_overwrites_entry_witness :
  connected_clients
    (serve_all (map heartbeat_of
       ([([("node", JStr "pumpkin"); ("ip", JStr "10.0.0.9")], demo_time, demo_time)]
        ++ [(demo_fields, demo_time, demo_time)])) initial) !! KStr "pumpkin"
  = Some (descriptor demo_fields).
Proof.
  apply heartbeat_overwrites_entry.
  - repeat constructor.
  - reflexivity.
Defined.

(** C2.  A relay request that names an identity absent from the registry is
    answered 404 with [success] false and a message; the world is unchanged,
    so no request has left the process. *)
Theorem relay_unknown_node
    (net : outbound -> pyexc + reply) (now : datetime) (node_name : string)
    (w : world) :
  connected_clients w !! KStr node_name = None ->
  serve (ToggleLed net now node_name) w =
    ({| code := 404;
        payload := JObj [("success", JBool false);
                         ("message",
                          JStr ("Node " +:+ node_name +:+ " not connected"))] |},
     w)
  /\ sent (snd (serve (ToggleLed net now node_name) w)) = sent w.
Proof.
  intros Hk. unfold serve. py_unfold. simpl. rewrite Hk. simpl. split; reflexivity.
Qed.

Lemma relay_unknown_node_witness :
  serve (ToggleLed demo_refused demo_time "ghost") demo_world =
    ({| code := 404;
        payload := JObj [("success", JBool false);
                         ("message", JStr ("Node " +:+ "ghost" +:+ " not connected"))] |},
     demo_world)
  /\ sent (snd (serve (ToggleLed demo_refused demo_time "ghost") demo_world))
     = sent demo_world.
Proof. apply relay_unknown_node. vm_compute. reflexivity. Defined.

(** C3.  For a registered identity with a truthy address exactly one request
    leaves, with a timeout of 5; when it raises, a timeout is answered 408,
    any other connection error 503, and everything else 500 with the text of
    the exception.  With a falsy address the answer is 400 and nothing is
    sent. *)
Theorem relay_transport_failures
    (net : outbound -> pyexc + reply) (now : datetime) (node_name : string)
    (w : world) (info : node_info) :
  connected_clients w !! KStr node_name = Some info ->
  let out := serve (ToggleLed net now node_name) w in
  (truthy (ip info) = true ->
     exists req,
       sent (snd out) = sent w ++ [req] /\ timeout req = 5 /\
       req = led_request node_name info /\
       forall e, net req = inl e ->
         fst out =
           if is_Timeout e
           then failure 408 ("Timeout connecting to " +:+ node_name)
           else if is_ConnectionError e
           then failure 503 ("Cannot connect to " +:+ node_name +:+ " at "
                             +:+ py_str (ip info))
           else failure 500 ("Error: " +:+ exc_str e))
  /\ (truthy (ip info) = false ->
        out = (failure 400 ("No IP address for node " +:+ node_name), w)).
Proof.
  intros Hk out. subst out. unfold serve. py_unfold. simpl. rewrite Hk.
  split; intros Hip; rewrite Hip; simpl; [|reflexivity].
  exists (led_request node_name info). unfold led_request.
  split; [|split; [reflexivity|split; [reflexivity|]]].
  - destruct (net _) as [e | r]; simpl.
    + destruct (is_Timeout e); [reflexivity|].
      destruct (is_ConnectionError e); reflexivity.
    + destruct (status_code r =? 200); [|reflexivity].
      destruct (reply_json r) as [data|]; [|reflexivity].
      destruct data; reflexivity.
  - intros e He. rewrite He. simpl.
    destruct (is_Timeout e); [reflexivity|].
    destruct (is_ConnectionError e); reflexivity.
Qed.


Lemma relay_transport_failures_witness :
  let out := serve (ToggleLed demo_refused demo_time "pumpkin") demo_world in
  (truthy (ip (descriptor demo_fields)) = true ->
     exists req,
       sent (snd out) = sent demo_world ++ [req] /\ timeout req = 5 /\
       req = led_request "pumpkin" (descriptor demo_fields) /\
       forall e, demo_refused req = inl e ->
         fst out =
           if is_Timeout e
           then failure 408 ("Timeout connecting to " +:+ "pumpkin")
           else if is_ConnectionError e
           then failure 503 ("Cannot connect to " +:+ "pumpkin" +:+ " at "
                             +:+ py_str (ip (descriptor demo_fields)))
           else failure 500 ("Error: " +:+ exc_str e))
  /\ (truthy (ip (descriptor demo_fields)) = false ->
        out = (failure 400 ("No IP address for node " +:+ "pumpkin"), demo_world)).
Proof.
  apply (relay_transport_failures demo_refused demo_time "pumpkin" demo_world
           (descriptor demo_fields)).
  vm_compute. reflexivity.
Defined.

(** The three transport failures answer with three different codes. *)
Lemma relay_failure_codes_differ (node_name host m : string) :
  let timed_out := failure 408 ("Timeout connecting to " +:+ node_name) in
  let unreachable :=
    failure 503 ("Cannot connect to " +:+ node_name +:+ " at " +:+ host) in
  let other := failure 500 ("Error: " +:+ m) in
  code timed_out <> code unreachable /\ code timed_out <> code other /\
  code unreachable <> code other.
Proof. simpl. repeat split; discriminate. Qed.

(** C5, as amended.  When the node answers 200 with a JSON object, the relay
    answers 200 with an object of its own: [success] true, the [state] field
    of the node's payload (["unknown"] when it has none), the identity and
    the server's timestamp. *)
Theorem relay_success_payload
    (net : outbound -> pyexc + reply) (now : datetime) (node_name : string)
    (w : world) (info : node_info) (remote : list (string * json)) :
  connected_clients w !! KStr node_name = Some info ->
  truthy (ip info) = true ->
  net (led_request node_name info)
    = inr {| status_code := 200; reply_json := Some (JObj remote) |} ->
  fst (serve (ToggleLed net now node_name) w) =
    {| code := 200;
       payload := JObj [("success", JBool true);
                        ("state", dict_get remote "state" (JStr "unknown"));
                        ("node", JStr node_name);
                        ("timestamp", JStr (isoformat now))] |}.
Proof.
  intros Hk Hip Hnet. unfold serve. py_unfold. simpl. rewrite Hk, Hip. simpl.
  unfold led_request in Hnet. rewrite Hnet. reflexivity.
Qed.

Lemma relay_success_payload_witness :
  fst (serve (ToggleLed (demo_answers demo_remote_toggled) demo_time "pumpkin")
         demo_world) =
    {| code := 200;
       payload := JObj [("success", JBool true);
                        ("state",
                         dict_get demo_remote_toggled "state" (JStr "unknown"));
                        ("node", JStr "pumpkin");
                        ("timestamp", JStr (isoformat demo_time))] |}.
Proof.
  apply (relay_success_payload (demo_answers demo_remote_toggled) demo_time
           "pumpkin" demo_world (descriptor demo_fields) demo_remote_toggled).
  - vm_compute. reflexivity.
  - reflexivity.
  - reflexivity.
Defined.

(** C5 as stated fails: the node answers a toggle with its state, a message,
    the device name and its own timestamp; the caller receives the state
    alone, beside the fields the relay adds. *)
Lemma relay_drops_remote_fields :
  let out := fst (serve (ToggleLed (demo_answers demo_remote_toggled) demo_time
                           "pumpkin") demo_world) in
  code out = 200 /\
  payload out = JObj [("success", JBool true); ("state", JStr "on");
                      ("node", JStr "pumpkin");
                      ("timestamp", JStr "2023-11-14T22:13:20")] /\
  ~ forwards_fields demo_remote_toggled (payload out).
Proof.
  assert (Hout : fst (serve (ToggleLed (demo_answers demo_remote_toggled)
                               demo_time "pumpkin") demo_world) =
                 {| code := 200;
                    payload := JObj [("success", JBool true);
                                     ("state", JStr "on");
                                     ("node", JStr "pumpkin");
                                     ("timestamp", JStr "2023-11-14T22:13:20")] |})
    by (vm_compute; reflexivity).
  cbv zeta. rewrite Hout. simpl. split; [reflexivity|]. split; [reflexivity|].
  intros (fields & Heq & Hall). injection Heq as <-.
  specialize (Hall "device" (JStr "led_1")).
  assert (Hin : In ("device", JStr "led_1") demo_remote_toggled)
    by (unfold demo_remote_toggled; simpl; tauto).
  specialize (Hall Hin ltac:(discriminate)). vm_compute in Hall. discriminate.
Qed.

(** C6.  Serving the same heartbeat body a second time leaves the registry
    mapping, and so the count, as the first serving left them. *)
Theorem heartbeat_idempotent
    (w : world) (body : pyexc + json) (seen1 acked1 seen2 acked2 : datetime) :
  let w1 := snd (serve (Heartbeat body seen1 acked1) w) in
  let w2 := snd (serve (Heartbeat body seen2 acked2) w1) in
  connected_clients w2 = connected_clients w1 /\ count w2 = count w1.
Proof.
  cbv zeta. unfold count.
  enough (H : connected_clients
                (snd (serve (Heartbeat body seen2 acked2)
                        (snd (serve (Heartbeat body seen1 acked1) w))))
              = connected_clients (snd (serve (Heartbeat body seen1 acked1) w)))
    by (rewrite H; split; reflexivity).
  unfold serve.
  destruct (receive_heartbeat_cases body seen1 acked1 w) as (r1 & w1 & E1 & H1).
  rewrite E1. simpl.
  destruct (receive_heartbeat_cases body seen2 acked2 w1) as (r2 & w2 & E2 & H2).
  rewrite E2. simpl.
  destruct H2 as [-> | (fields & k & Hb & Hid & ->)]; [reflexivity|]. simpl.
  destruct H1 as [-> | (fields' & k' & Hb' & Hid' & ->)].
  - subst body. rewrite (receive_heartbeat_registers _ _ _ _ _ Hid) in E1.
    injection E1 as _ E1. apply (f_equal connected_clients) in E1. exact E1.
  - rewrite Hb in Hb'. injection Hb' as <-. rewrite Hid in Hid'.
    injection Hid' as <-. simpl. apply insert_insert_eq.
Qed.

(** C9.  Whatever requests are served, in whatever order, every identity in
    the registry at some point is still there at every later point. *)
Theorem registry_never_evicts (before after : list request) (w : world) :
  dom (connected_clients (serve_all before w))
    ⊆ dom (connected_clients (serve_all (before ++ after) w)).
Proof.
  rewrite serve_all_app. generalize (serve_all before w) as w0.
  induction after as [|r rs IH]; intros w0; simpl; [reflexivity|].
  etransitivity; [|apply IH].
  intros k Hk. apply elem_of_dom. apply serve_keeps_entries.
  apply elem_of_dom. exact Hk.
Qed.

(** C10, as amended.  When the body is a JSON object whose [node] field is
    missing or falsy, the heartbeat changes neither map and is acknowledged
    with the server's timestamp. *)
Theorem heartbeat_without_identity
    (fields : list (string * json)) (seen acked : datetime) (w : world) :
  truthy (dict_get fields "node" JNull) = false ->
  serve (Heartbeat (inr (JObj fields)) seen acked) w = (acknowledgment acked, w).
Proof.
  intros Hn. unfold serve. rewrite (receive_heartbeat_skips _ _ _ _ Hn). reflexivity.
Qed.

Lemma heartbeat_without_identity_witness :
  serve (Heartbeat (inr (JObj [("ip", JStr "192.168.4.12"); ("node", JStr "")]))
           demo_time demo_time) demo_world
  = (acknowledgment demo_time, demo_world).
Proof. apply heartbeat_without_identity. reflexivity. Defined.

(** C10 as stated fails: the body [[]] is JSON and has no [node] field, and
    the answer is a 500 error, not the acknowledgment. *)
Lemma heartbeat_array_body_is_an_error :
  truthy (node_field (JArr [])) = false /\
  serve (Heartbeat (inr (JArr [])) demo_time demo_time) demo_world =
    ({| code := 500;
        payload := JObj [("status", JStr "error");
                         ("message",
                          JStr "'list' object has no attribute 'get'")] |},
     demo_world) /\
  fst (serve (Heartbeat (inr (JArr [])) demo_time demo_time) demo_world)
    <> acknowledgment demo_time.
Proof.
  split; [reflexivity|]. split; [reflexivity|]. discriminate.
Qed.

End DashboardFacts.

(** ** The failover logger *)

Module Esp32LoggerFacts.
Import Py Esp32Logger PyFacts.

Lemma classify_keeps (line ts : string) (e : event_data) (l : logs) :
  let out := classify line ts (e, l) in
  signal_strength (fst out) = signal_strength e /\
  active_ap_mac (fst out) = active_ap_mac e /\
  raw_log (snd out) = raw_log l /\
  events_log (snd out) = events_log l.
Proof.
  unfold classify.
  repeat match goal with
         | |- context [if ?b then _ else _] => destruct b
         end; simpl; auto.
Qed.

Lemma classify_unmatched (line ts : string) (e : event_data) (l : logs) :
  matches_pattern line = false -> classify line ts (e, l) = (e, l).
Proof.
  unfold matches_pattern, classify. intros H.
  repeat (apply orb_false_iff in H as [H ?]).
  now repeat match goal with
             | Hc : contains _ line = false |- _ => rewrite Hc; clear Hc
             end.
Qed.

Lemma extract_signal_event_type (line : string) (e : event_data) :
  event_type (extract_signal line e) = event_type e.
Proof.
  unfold extract_signal.
  repeat match goal with
         | |- context [if ?b then _ else _] => destruct b
         | |- context [match ?o with Some _ => _ | None => _ end] => destruct o
         end; reflexivity.
Qed.

Lemma extract_mac_keeps (line : string) (e : event_data) :
  event_type (extract_mac line e) = event_type e /\
  signal_strength (extract_mac line e) = signal_strength e.
Proof.
  unfold extract_mac.
  repeat match goal with
         | |- context [if ?b then _ else _] => destruct b
         | |- context [match ?o with Some _ => _ | None => _ end] => destruct o
         end; split; reflexivity.
Qed.


Lemma detect_events_unfold (line ts : string) (l : logs) :
  exists e1 l1,
    classify line ts
      ({| timestamp := ts; event_type := "unknown";
          primary_ap_status := "unknown"; backup_ap_status := "unknown";
          active_ap_mac := ""; signal_strength := 0;
          failover_detected := false; details := line |}, l) = (e1, l1) /\
    let e3 := extract_mac line (extract_signal line e1) in
    detect_events line ts l =
      (e3, if String.eqb (event_type e3) "unknown" then l1 else log_event_csv e3 l1).
Proof.
  unfold detect_events.
  destruct (classify _ _ _) as [e1 l1]. exists e1, l1. split; [reflexivity|].
  cbv zeta. destruct (String.eqb _ "unknown"); reflexivity.
Qed.




(** The kind does not depend on the files, and the failover file is written
    for failover events only. *)
Lemma classify_files (line ts : string) (e : event_data) (l : logs) :
  fst (classify line ts (e, l)) = fst (classify line ts (e, init_csv_log)) /\
  (failover_log (snd (classify line ts (e, l))) = failover_log l \/
   event_type (fst (classify line ts (e, l))) = "failover").
Proof.
  unfold classify.
  repeat match goal with
         | |- context [if ?b then _ else _] => destruct b
         end; simpl; auto.
Qed.

Lemma detect_events_event (line ts : string) (l : logs) :
  fst (detect_events line ts l) = fst (detect_events line ts init_csv_log).
Proof.
  destruct (detect_events_unfold line ts l) as (e1 & l1 & Hc & ->).
  destruct (detect_events_unfold line ts init_csv_log) as (e1' & l1' & Hc' & ->).
  cbn [fst].
  pose proof (classify_files line ts
    {| timestamp := ts; event_type := "unknown";
       primary_ap_status := "unknown"; backup_ap_status := "unknown";
       active_ap_mac := ""; signal_strength := 0;
       failover_detected := false; details := line |} l) as [Hfst _].
  rewrite Hc, Hc' in Hfst. cbn [fst] in Hfst. now subst e1'.
Qed.

Lemma detect_events_files (line ts : string) (l : logs) :
  let out := detect_events line ts l in
  raw_log (snd out) = raw_log l /\
  events_log (snd out) =
    events_log l ++
    (if String.eqb (event_type (fst out)) "unknown" then [] else [csv_row (fst out)]) /\
  (event_type (fst out) = "unknown" -> failover_log (snd out) = failover_log l).
Proof.
  cbv zeta.
  destruct (detect_events_unfold line ts l) as (e1 & l1 & Hc & ->).
  cbn [fst snd].
  set (e0 := {| timestamp := ts; event_type := "unknown";
                primary_ap_status := "unknown"; backup_ap_status := "unknown";
                active_ap_mac := ""; signal_strength := 0;
                failover_detected := false; details := line |}) in *.
  pose proof (classify_keeps line ts e0 l) as Hk. cbv zeta in Hk.
  pose proof (classify_files line ts e0 l) as [_ Hfl].
  rewrite Hc in Hk, Hfl. cbn [fst snd] in Hk, Hfl.
  destruct Hk as (_ & _ & Hraw & Hev).
  destruct (extract_mac_keeps line (extract_signal line e1)) as [Hty _].
  rewrite extract_signal_event_type in Hty.
  destruct (String.eqb _ "unknown") eqn:Hu; simpl.
  - rewrite app_nil_r. repeat split; try assumption.
    intros Hunk. rewrite Hty in Hunk.
    destruct Hfl as [Hfl | Hfl]; [exact Hfl | rewrite Hunk in Hfl; discriminate].
  - repeat split; try assumption; try (now rewrite Hev).
    intros Hunk. rewrite Hunk in Hu. discriminate.
Qed.

(** C4.  The two literal lines are classified [failover] (with
    [failover_detected] set) and [primary_ap_offline]; a line with none of
    the marker phrases is [unknown]; the CSV log grows by the row of the
    event exactly when its kind is not [unknown]; and an [unknown] line
    reaches the raw log only. *)
Theorem classifier_and_event_log (line ts : string) (l : logs) :
  (let e := fst (detect_events "FAILOVER DETECTED: switching to backup" ts l) in
   event_type e = "failover" /\ failover_detected e = true)
  /\ event_type (fst (detect_events "Primary AP: offline" ts l)) = "primary_ap_offline"
  /\ (matches_pattern line = false ->
      event_type (fst (detect_events line ts l)) = "unknown")
  /\ events_log (snd (detect_events line ts l)) =
       events_log l ++
       (if String.eqb (event_type (fst (detect_events line ts l))) "unknown"
        then [] else [csv_row (fst (detect_events line ts l))])
  /\ (line <> "" ->
      event_type (fst (detect_events line ts l)) = "unknown" ->
      process_line line ts l =
        {| raw_log := raw_log l ++ [ts +:+ " | " +:+ line +:+ newline];
           events_log := events_log l;
           failover_log := failover_log l |}).
Proof.
  split; [|split; [|split; [|split]]].
  - rewrite detect_events_event. cbv zeta. split; reflexivity.
  - rewrite detect_events_event. reflexivity.
  - intros Hm.
    destruct (detect_events_unfold line ts l) as (e1 & l1 & Hc & ->). cbn [fst].
    destruct (extract_mac_keeps line (extract_signal line e1)) as [-> _].
    rewrite extract_signal_event_type.
    rewrite (classify_unmatched _ _ _ _ Hm) in Hc. now injection Hc as <- _.
  - apply (detect_events_files line ts l).
  - intros Hne Hunk. unfold process_line.
    destruct (String.eqb line "") eqn:He; [apply String.eqb_eq in He; contradiction|].
    set (l1 := {| raw_log := raw_log l ++ [ts +:+ " | " +:+ line +:+ newline];
                  events_log := events_log l; failover_log := failover_log l |}).
    rewrite (detect_events_event line ts l) in Hunk.
    rewrite <- (detect_events_event line ts l1) in Hunk.
    destruct (detect_events_files line ts l1) as (Hraw & Hev & Hfl).
    rewrite Hunk in Hev. simpl in Hev. rewrite app_nil_r in Hev.
    specialize (Hfl Hunk).
    destruct (snd (detect_events line ts l1)) as [r e f]. simpl in *. now subst.
Qed.

Lemma classifier_and_event_log_witness :
  event_type (fst (detect_events "Heap free: 214532 bytes" "2025-01-01T00:00:00"
                     init_csv_log)) = "unknown"
  /\ process_line "Heap free: 214532 bytes" "2025-01-01T00:00:00" init_csv_log =
       {| raw_log := raw_log init_csv_log ++
            ["2025-01-01T00:00:00" +:+ " | " +:+ "Heap free: 214532 bytes" +:+ newline];
          events_log := events_log init_csv_log;
          failover_log := failover_log init_csv_log |}.
Proof.
  pose proof (classifier_and_event_log "Heap free: 214532 bytes"
                "2025-01-01T00:00:00" init_csv_log) as (_ & _ & Hunk & _ & Hproc).
  assert (H : event_type (fst (detect_events "Heap free: 214532 bytes"
                "2025-01-01T00:00:00" init_csv_log)) = "unknown")
    by (apply Hunk; vm_compute; reflexivity).
  split; [exact H|]. apply Hproc; [discriminate | exact H].
Defined.

End Esp32LoggerFacts.

(** ** The auto-off timers *)

Module ClientFacts.
Import Py Client.

(** *** What one call can do to the manager *)

Lemma clear_unregisters (n : string) (m : manager) :
  led_timers (_clear_auto_off_timer n m) !! n = None.
Proof.
  unfold _clear_auto_off_timer.
  destruct (led_timers m !! n) eqn:E; simpl; [apply lookup_delete_eq | exact E].
Qed.

Lemma clear_on_record (n : string) (m : manager) :
  timers_on_record m -> timers_on_record (_clear_auto_off_timer n m).
Proof.
  intros Hrec. unfold _clear_auto_off_timer.
  destruct (led_timers m !! n) as [h0|] eqn:E; [|exact Hrec].
  intros h t. simpl. intros Ht Hf.
  destruct (decide (h0 = h)) as [->|Hne].
  - rewrite list_lookup_alter_eq in Ht.
    destruct (timers m !! h); simpl in Ht; [|discriminate].
    injection Ht as <-. discriminate.
  - rewrite list_lookup_alter_ne in Ht by exact Hne.
    pose proof (Hrec h t Ht Hf) as Hl.
    rewrite lookup_delete_ne; [exact Hl|].
    intros Heq. congruence.
Qed.

Lemma set_on_record (n : string) (m : manager) :
  timers_on_record m -> timers_on_record (_set_auto_off_timer n m).
Proof.
  intros Hrec. unfold _set_auto_off_timer.
  destruct (0 <? led_auto_off_time m); [|exact Hrec].
  pose proof (clear_on_record n m Hrec) as Hrec1.
  pose proof (clear_unregisters n m) as Hnone.
  set (m1 := _clear_auto_off_timer n m) in *.
  intros h t. simpl. intros Ht Hf.
  apply lookup_app_Some in Ht as [Ht | [Hlen Ht]].
  - pose proof (Hrec1 h t Ht Hf) as Hl.
    rewrite lookup_insert_ne; [exact Hl|]. intros Heq. congruence.
  - destruct (h - length (timers m1))%nat as [|k] eqn:Ek; [|destruct k; discriminate].
    simpl in Ht. injection Ht as <-. simpl.
    replace h with (length (timers m1)) by lia. apply lookup_insert_eq.
Qed.

Lemma control_led_on_record (n action : string) (m : manager) :
  timers_on_record m -> timers_on_record (snd (control_led n action m)).
Proof.
  intros Hrec. unfold control_led.
  destruct (devices m !! n) as [dev|]; [|exact Hrec].
  repeat match goal with
         | |- context [if ?b then _ else _] => destruct b
         | |- context [match ?o with inl _ => _ | inr _ => _ end] => destruct o
         end; simpl; try exact Hrec;
    try (apply set_on_record; exact Hrec);
    try (apply clear_on_record; exact Hrec).
Qed.


Lemma set_finished_on_record (h : nat) (m : manager) :
  timers_on_record m -> timers_on_record (set_finished h m).
Proof.
  intros Hrec h' t. simpl. intros Ht Hf.
  destruct (decide (h = h')) as [->|Hne].
  - rewrite list_lookup_alter_eq in Ht.
    destruct (timers m !! h'); simpl in Ht; [|discriminate].
    injection Ht as <-. discriminate.
  - rewrite list_lookup_alter_ne in Ht by exact Hne. apply Hrec; assumption.
Qed.

(** [fire] does nothing, or runs the [off] of a timer that was still to run. *)
Lemma fire_cases (h : nat) (m : manager) :
  fire h m = m \/
  exists t, timers m !! h = Some t /\ finished t = false /\ due t <= clock m /\
            fire h m = set_finished h (snd (control_led (led t) "off" m)).
Proof.
  unfold fire. destruct (timers m !! h) as [t|]; [|now left].
  destruct (finished t) eqn:Hf; [now left|]. simpl.
  destruct (clock m <? due t) eqn:Hc; [now left|].
  right. exists t. apply Z.ltb_ge in Hc. repeat split; first [reflexivity | assumption].
Qed.

Lemma fire_on_record (h : nat) (m : manager) :
  timers_on_record m -> timers_on_record (fire h m).
Proof.
  intros Hrec. destruct (fire_cases h m) as [-> | (t & _ & _ & _ & ->)]; [exact Hrec|].
  apply set_finished_on_record, control_led_on_record, Hrec.
Qed.

Lemma foldl_fire_invariant (P : manager -> Prop) (hs : list nat) (m : manager) :
  (forall h m0, P m0 -> P (fire h m0)) -> P m ->
  P (foldl (fun acc h => fire h acc) m hs).
Proof.
  intros Hstep. revert m. induction hs as [|h hs IH]; intros m Hm; simpl; [exact Hm|].
  apply IH, Hstep, Hm.
Qed.

Lemma tick_on_record (m : manager) :
  timers_on_record m -> timers_on_record (tick m).
Proof.
  intros Hrec. unfold tick. apply foldl_fire_invariant; [|exact Hrec].
  intros h m0. apply fire_on_record.
Qed.

Lemma step_on_record (e : event) (m : manager) :
  timers_on_record m -> timers_on_record (step e m).
Proof.
  destruct e; simpl; intros Hrec.
  - apply control_led_on_record, Hrec.
  - apply tick_on_record, Hrec.
  - exact Hrec.
Qed.

Lemma control_led_config (n action : string) (m : manager) :
  led_auto_off_time (snd (control_led n action m)) = led_auto_off_time m /\
  clock (snd (control_led n action m)) = clock m /\
  (length (timers m) <= length (timers (snd (control_led n action m))))%nat.
Proof.
  unfold control_led, _set_auto_off_timer, _clear_auto_off_timer.
  destruct (devices m !! n) as [dev|]; [|simpl; lia].
  repeat match goal with
         | |- context [if ?b then _ else _] => destruct b
         | |- context [match ?o with inl _ => _ | inr _ => _ end] => destruct o
         | |- context [match ?o with Some _ => _ | None => _ end] => destruct o
         end; simpl; rewrite ?length_app, ?length_alter; simpl; lia.
Qed.


Lemma control_led_off_eq (n : string) (m : manager) :
  snd (control_led n "off" m) =
    match devices m !! n with
    | None => m
    | Some dev =>
        match dev_off dev with
        | inl _ => m
        | inr dev' =>
            _clear_auto_off_timer n
              (set_last_led_state n false (set_device n dev' m))
        end
    end.
Proof.
  unfold control_led. destruct (devices m !! n) as [dev|]; [|reflexivity].
  simpl. destruct (dev_off dev); reflexivity.
Qed.

Lemma control_led_on_eq (n : string) (m : manager) :
  snd (control_led n "on" m) =
    match devices m !! n with
    | None => m
    | Some dev =>
        match dev_on dev with
        | inl _ => m
        | inr dev' =>
            _set_auto_off_timer n
              (set_last_led_state n true (set_device n dev' m))
        end
    end.
Proof.
  unfold control_led. destruct (devices m !! n) as [dev|]; [|reflexivity].
  simpl. destruct (dev_on dev); reflexivity.
Qed.

(** An [off] for [n] leaves every other LED, its record and its timer alone. *)
Lemma control_led_off_frame (n name : string) (m : manager) :
  n <> name ->
  let m' := snd (control_led n "off" m) in
  devices m' !! name = devices m !! name /\
  led_timers m' !! name = led_timers m !! name /\
  (forall h, led_timers m !! n <> Some h -> timers m' !! h = timers m !! h) /\
  length (timers m') = length (timers m).
Proof.
  intros Hne. cbv zeta. rewrite control_led_off_eq.
  destruct (devices m !! n) as [dev|]; [|auto].
  destruct (dev_off dev) as [e|dev']; [auto|].
  unfold _clear_auto_off_timer. simpl.
  destruct (led_timers m !! n) as [h0|] eqn:E; simpl.
  - rewrite lookup_insert_ne by exact Hne. rewrite lookup_delete_ne by exact Hne.
    rewrite length_alter. repeat split.
    intros h Hh. apply list_lookup_alter_ne. congruence.
  - rewrite lookup_insert_ne by exact Hne. auto.
Qed.

Lemma fire_config (h : nat) (m : manager) :
  led_auto_off_time (fire h m) = led_auto_off_time m /\
  clock (fire h m) = clock m /\
  length (timers (fire h m)) = length (timers m).
Proof.
  destruct (fire_cases h m) as [-> | (t & _ & _ & _ & ->)]; [auto|].
  simpl. rewrite length_alter.
  destruct (control_led_config (led t) "off" m) as (-> & -> & _).
  repeat split. rewrite control_led_off_eq.
  destruct (devices m !! led t) as [dev|]; [|reflexivity].
  destruct (dev_off dev); [reflexivity|].
  unfold _clear_auto_off_timer. simpl.
  destruct (led_timers m !! led t); simpl; [apply length_alter | reflexivity].
Qed.

Lemma tick_config (m : manager) :
  led_auto_off_time (tick m) = led_auto_off_time m /\
  clock (tick m) = clock m + 1.
Proof.
  unfold tick.
  apply (foldl_fire_invariant
           (fun m0 => led_auto_off_time m0 = led_auto_off_time m /\
                      clock m0 = clock m + 1)).
  - intros h m0 [H1 H2]. destruct (fire_config h m0) as (-> & -> & _). auto.
  - simpl. auto.
Qed.

Lemma run_snoc (es : list event) (e : event) (m : manager) :
  run (es ++ [e]) m = step e (run es m).
Proof. unfold run. now rewrite foldl_app. Qed.

(** The two facts about reachable states that the timers rest on. *)
Lemma reachable_invariant (m : manager) :
  reachable m -> timers_on_record m /\ 0 < led_auto_off_time m.
Proof.
  intros (devs & now & es & ->).
  induction es as [|e es IH] using rev_ind.
  - split; [|reflexivity]. intros h t Ht. discriminate.
  - rewrite run_snoc. destruct IH as [Hrec Hpos]. split.
    + apply step_on_record, Hrec.
    + destruct e as [n a| |v]; simpl.
      * now destruct (control_led_config n a (run es (new_manager devs now))) as (-> & _).
      * now destruct (tick_config (run es (new_manager devs now))) as (-> & _).
      * lia.
Qed.

Lemma reachable_step (e : event) (m : manager) :
  reachable m -> reachable (step e m).
Proof.
  intros (devs & now & es & ->). exists devs, now, (es ++ [e]).
  now rewrite run_snoc.
Qed.


(** *** Arming *)

Lemma on_arms (name : string) (b : bool) (m : manager) :
  0 < led_auto_off_time m ->
  devices m !! name = Some (LED b) ->
  let m' := snd (control_led name "on" m) in
  armed name (length (timers m)) (clock m + led_auto_off_time m) m' /\
  (forall h t, timers m !! h = Some t ->
     timers m' !! h =
       Some (if decide (led_timers m !! name = Some h) then finish t else t)).
Proof.
  intros Hpos Hdev. cbv zeta. rewrite control_led_on_eq, Hdev. simpl.
  unfold _set_auto_off_timer. simpl.
  apply Z.ltb_lt in Hpos. rewrite Hpos.
  unfold _clear_auto_off_timer. simpl.
  destruct (led_timers m !! name) as [h0|] eqn:E; simpl.
  - rewrite length_alter. unfold armed. simpl. repeat split.
    + apply lookup_insert_eq.
    + apply lookup_insert_eq.
    + rewrite lookup_app_r by (rewrite length_alter; lia).
      rewrite length_alter, Nat.sub_diag. reflexivity.
    + intros h t Ht. rewrite lookup_app_l
        by (rewrite length_alter; eapply lookup_lt_Some; exact Ht).
      case_decide as Hd.
      * injection Hd as ->. rewrite list_lookup_alter_eq, Ht. reflexivity.
      * rewrite list_lookup_alter_ne by congruence. exact Ht.
  - unfold armed. simpl. repeat split.
    + apply lookup_insert_eq.
    + apply lookup_insert_eq.
    + rewrite lookup_app_r by lia. rewrite Nat.sub_diag. reflexivity.
    + intros h t Ht. rewrite lookup_app_l by (eapply lookup_lt_Some; exact Ht).
      first [exact Ht | case_decide; [discriminate | exact Ht]].
Qed.

Lemma off_disarms (name : string) (b : bool) (m : manager) :
  devices m !! name = Some (LED b) ->
  let m' := snd (control_led name "off" m) in
  idle name m' /\
  (forall h t, timers m !! h = Some t ->
     timers m' !! h =
       Some (if decide (led_timers m !! name = Some h) then finish t else t)).
Proof.
  intros Hdev. cbv zeta. rewrite control_led_off_eq, Hdev. simpl.
  unfold _clear_auto_off_timer, idle, lit. simpl.
  destruct (led_timers m !! name) as [h0|] eqn:E; simpl.
  - rewrite lookup_insert_eq, lookup_delete_eq. repeat split.
    intros h t Ht. case_decide as Hd.
    + injection Hd as ->. rewrite list_lookup_alter_eq, Ht. reflexivity.
    + rewrite list_lookup_alter_ne by congruence. exact Ht.
  - rewrite lookup_insert_eq. repeat split; [exact E|].
    intros h t Ht. first [exact Ht | case_decide; [discriminate | exact Ht]].
Qed.

(** *** The clock moves on *)

Lemma fire_other_armed (name : string) (h h' : nat) (T : Z) (m : manager) :
  timers_on_record m -> armed name h T m -> h' <> h ->
  armed name h T (fire h' m).
Proof.
  intros Hrec (Hdev & Hreg & Ht) Hne.
  destruct (fire_cases h' m) as [-> | (t' & Ht' & Hf' & _ & ->)];
    [repeat split; assumption|].
  pose proof (Hrec h' t' Ht' Hf') as Hreg'.
  assert (Hled : led t' <> name) by (intros Heq; rewrite Heq in Hreg'; congruence).
  destruct (control_led_off_frame (led t') name m Hled) as (Hd & Hl & Htm & _).
  unfold armed. simpl. rewrite Hd, Hl. repeat split; try assumption.
  rewrite list_lookup_alter_ne by exact Hne.
  rewrite Htm; [exact Ht | congruence].
Qed.

Lemma fire_self_early (name : string) (h : nat) (T : Z) (m : manager) :
  armed name h T m -> clock m < T -> fire h m = m.
Proof.
  intros (_ & _ & Ht) Hc. unfold fire. rewrite Ht. simpl.
  apply Z.ltb_lt in Hc. now rewrite Hc.
Qed.

Lemma fire_self_due (name : string) (h : nat) (T : Z) (m : manager) :
  armed name h T m -> T <= clock m -> idle name (fire h m).
Proof.
  intros (Hdev & Hreg & Ht) Hc. unfold fire. rewrite Ht. simpl.
  apply Z.ltb_ge in Hc. rewrite Hc.
  destruct (off_disarms name true m Hdev) as [[Hlit Hnone] _].
  split; [exact Hlit | exact Hnone].
Qed.

Lemma fire_idle (name : string) (h : nat) (m : manager) :
  timers_on_record m -> idle name m -> idle name (fire h m).
Proof.
  intros Hrec [Hlit Hnone].
  destruct (fire_cases h m) as [-> | (t' & Ht' & Hf' & _ & ->)]; [now split|].
  pose proof (Hrec h t' Ht' Hf') as Hreg'.
  assert (Hled : led t' <> name) by (intros Heq; rewrite Heq in Hreg'; congruence).
  destruct (control_led_off_frame (led t') name m Hled) as (Hd & Hl & _ & _).
  unfold idle, lit in *. simpl. rewrite Hd, Hl. now split.
Qed.

Lemma tick_armed_early (name : string) (h : nat) (T : Z) (m : manager) :
  timers_on_record m -> armed name h T m -> clock m + 1 < T ->
  armed name h T (tick m).
Proof.
  intros Hrec Harm Hc. unfold tick.
  apply (foldl_fire_invariant
           (fun m0 => timers_on_record m0 /\ armed name h T m0 /\
                      clock m0 = clock m + 1)).
  - intros h' m0 (Hrec0 & Harm0 & Hc0).
    split; [apply fire_on_record, Hrec0|].
    destruct (fire_config h' m0) as (_ & Hck & _). split; [|lia].
    destruct (decide (h' = h)) as [->|Hne].
    + rewrite (fire_self_early name h T m0 Harm0); [exact Harm0 | lia].
    + apply fire_other_armed; assumption.
  - repeat split; try apply Harm. exact Hrec.
Qed.

Lemma foldl_fire_due (name : string) (h : nat) (T : Z) (hs : list nat) (m : manager) :
  timers_on_record m -> T <= clock m -> h ∈ hs ->
  armed name h T m \/ idle name m ->
  idle name (foldl (fun acc h' => fire h' acc) m hs).
Proof.
  revert m. induction hs as [|h' hs IH]; intros m Hrec Hc Hin Hst.
  { apply elem_of_nil in Hin. contradiction. }
  simpl.
  assert (Hkeep : forall m0 hs0, timers_on_record m0 -> idle name m0 ->
            idle name (foldl (fun acc h' => fire h' acc) m0 hs0)).
  { intros m0 hs0 Hrec0 Hidle0.
    apply (foldl_fire_invariant (fun m1 => timers_on_record m1 /\ idle name m1));
      [|now split].
    intros h1 m1 [Hr1 Hi1]. split; [apply fire_on_record, Hr1 | apply fire_idle; assumption]. }
  destruct (fire_config h' m) as (_ & Hck & _).
  destruct Hst as [Harm | Hidle].
  - destruct (decide (h' = h)) as [->|Hne].
    + apply Hkeep; [apply fire_on_record, Hrec|].
      apply (fire_self_due name h T m Harm Hc).
    + apply elem_of_cons in Hin as [Heq | Hin]; [congruence|].
      apply IH; [apply fire_on_record, Hrec | lia | exact Hin |].
      left. apply fire_other_armed; assumption.
  - apply Hkeep; [apply fire_on_record, Hrec | apply fire_idle; assumption].
Qed.

Lemma tick_armed_due (name : string) (h : nat) (T : Z) (m : manager) :
  timers_on_record m -> armed name h T m -> clock m + 1 = T ->
  idle name (tick m).
Proof.
  intros Hrec Harm Hc. unfold tick.
  apply (foldl_fire_due name h T).
  - exact Hrec.
  - simpl. lia.
  - apply elem_of_seq. destruct Harm as (_ & _ & Ht).
    apply lookup_lt_Some in Ht. lia.
  - left. exact Harm.
Qed.

Lemma wait_snoc (k : nat) (m : manager) : wait (S k) m = tick (wait k m).
Proof.
  revert m. induction k as [|k IH]; intros m; [reflexivity|].
  change (wait (S (S k)) m) with (wait (S k) (tick m)). rewrite IH. reflexivity.
Qed.

Lemma wait_armed (name : string) (h : nat) (T : Z) (k : nat) (m : manager) :
  timers_on_record m -> armed name h T m -> clock m + Z.of_nat k < T ->
  timers_on_record (wait k m) /\ armed name h T (wait k m) /\
  clock (wait k m) = clock m + Z.of_nat k /\
  led_auto_off_time (wait k m) = led_auto_off_time m.
Proof.
  intros Hrec Harm. induction k as [|k IH]; intros Hc.
  - simpl. rewrite Z.add_0_r. auto.
  - rewrite wait_snoc. destruct IH as (Hr & Ha & Hck & Hd); [lia|].
    destruct (tick_config (wait k m)) as [Hd' Hck'].
    split; [apply tick_on_record, Hr|].
    split; [apply tick_armed_early; [exact Hr | exact Ha | lia]|].
    split; [lia | congruence].
Qed.


Lemma armed_lit (name : string) (h : nat) (T : Z) (m : manager) :
  armed name h T m -> lit name m = true.
Proof. intros (Hdev & _). unfold lit. now rewrite Hdev. Qed.

(** C7.  In a reachable state with [name] an LED: an [on] or an [off]
    finishes the timer that was on record for [name]; after the [on] the one
    timer of [name] still to run is the new one, due one period after the
    call.  And when a second [on] comes [d] seconds after a first, with [d]
    below the period, the LED stays lit for all of the period that follows
    the second [on] and goes dark when that period ends. *)
Theorem auto_off_rearmed (m : manager) (name : string) (b : bool) :
  reachable m ->
  devices m !! name = Some (LED b) ->
  let D := led_auto_off_time m in
  (forall (h : nat) (t : timer),
     led_timers m !! name = Some h -> timers m !! h = Some t ->
     finished t = false ->
     let m_on := snd (control_led name "on" m) in
     let m_off := snd (control_led name "off" m) in
     (timers m_on !! h = Some (finish t) /\
      armed name (length (timers m)) (clock m + D) m_on /\
      (forall h' t', timers m_on !! h' = Some t' -> led t' = name ->
                     finished t' = false -> h' = length (timers m))) /\
     (timers m_off !! h = Some (finish t) /\
      led_timers m_off !! name = None /\
      (forall h' t', timers m_off !! h' = Some t' -> led t' = name ->
                     finished t' = true)))
  /\
  (forall d : nat,
     Z.of_nat d < D ->
     let m1 := snd (control_led name "on" m) in
     let m2 := snd (control_led name "on" (wait d m1)) in
     clock m2 = clock m + Z.of_nat d /\
     (forall k : nat, Z.of_nat k < D -> lit name (wait k m2) = true) /\
     lit name (wait (Z.to_nat D) m2) = false).
Proof.
  intros Hreach Hdev D.
  destruct (reachable_invariant m Hreach) as [Hrec Hpos].
  destruct (on_arms name b m Hpos Hdev) as [Harm1 Hold1].
  pose proof (control_led_on_record name "on" m Hrec) as Hrec1.
  destruct (control_led_config name "on" m) as (HD1 & Hck1 & _).
  split.
  - intros h t Hreg Ht Hf m_on m_off. split.
    + split; [|split; [exact Harm1|]].
      * subst m_on. rewrite (Hold1 h t Ht). now rewrite decide_True.
      * intros h' t' Ht' Hled Hf'. subst m_on.
        pose proof (Hrec1 h' t' Ht' Hf') as Hr. rewrite Hled in Hr.
        destruct Harm1 as (_ & Hreg1 & _). congruence.
    + destruct (off_disarms name b m Hdev) as [[_ Hnone] Hold].
      pose proof (control_led_on_record name "off" m Hrec) as Hrec0.
      split; [|split; [exact Hnone|]].
      * subst m_off. rewrite (Hold h t Ht). now rewrite decide_True.
      * intros h' t' Ht' Hled. subst m_off.
        destruct (finished t') eqn:Hf'; [reflexivity|].
        pose proof (Hrec0 h' t' Ht' Hf') as Hr. rewrite Hled in Hr. congruence.
  - intros d Hd m1 m2.
    destruct (wait_armed name _ _ d m1 Hrec1 Harm1) as (Hrecw & Harmw & Hckw & HDw);
      [subst m1 D; lia|].
    assert (Hposw : 0 < led_auto_off_time (wait d m1)) by (subst m1 D; lia).
    destruct Harmw as (Hdevw & _).
    destruct (on_arms name true (wait d m1) Hposw Hdevw) as [Harm2 _].
    pose proof (control_led_on_record name "on" (wait d m1) Hrecw) as Hrec2.
    destruct (control_led_config name "on" (wait d m1)) as (HD2 & Hck2 & _).
    fold m2 in Harm2, Hrec2, HD2, Hck2.
    assert (HT : clock (wait d m1) + led_auto_off_time (wait d m1) = clock m2 + D)
      by (subst m1 D; lia).
    rewrite HT in Harm2.
    split; [subst m1; lia|]. split.
    + intros k Hk.
      destruct (wait_armed name _ _ k m2 Hrec2 Harm2) as (_ & Ha & _); [lia|].
      exact (armed_lit _ _ _ _ Ha).
    + replace (Z.to_nat D) with (S (Z.to_nat (D - 1))) by lia.
      rewrite wait_snoc.
      destruct (wait_armed name _ _ (Z.to_nat (D - 1)) m2 Hrec2 Harm2)
        as (Hr & Ha & Hc & _); [lia|].
      destruct (tick_armed_due name _ _ _ Hr Ha) as [Hlit _]; [lia | exact Hlit].
Qed.

Lemma auto_off_rearmed_witness :
  let first := {| led := "led_1"; due := 300; finished := false |} in
  let m_on := snd (control_led "led_1" "on" demo_manager) in
  let m2 := snd (control_led "led_1" "on" (wait 120 m_on)) in
  (timers m_on !! 0%nat = Some (finish first) /\
   armed "led_1" (length (timers demo_manager))
     (clock demo_manager + led_auto_off_time demo_manager) m_on) /\
  clock m2 = clock demo_manager + 120 /\
  lit "led_1" (wait 180 m2) = true /\
  lit "led_1" (wait 300 m2) = false.
Proof.
  assert (Hreach : reachable demo_manager)
    by (exists board, 0, [Call "led_1" "on"; Tick; Tick]; reflexivity).
  assert (Hdev : devices demo_manager !! "led_1" = Some (LED true))
    by (vm_compute; reflexivity).
  destruct (auto_off_rearmed demo_manager "led_1" true Hreach Hdev) as [HA HB].
  cbv zeta. split.
  - destruct (HA 0%nat {| led := "led_1"; due := 300; finished := false |})
      as [(Hcancel & Harm & _) _]; try (vm_compute; reflexivity).
    split; [exact Hcancel | exact Harm].
  - destruct (HB 120%nat) as (Hc & Hlit & Hoff); [vm_compute; reflexivity|].
    split; [exact Hc|]. split; [|exact Hoff].
    apply (Hlit 180%nat). vm_compute. reflexivity.
Defined.

End ClientFacts.

(* ===================================================================== *)
(** * Further properties *)
(* ===================================================================== *)

(** ** The registry and the relay *)

Module DashboardMore.
Import Py Dashboard DashboardCases DashboardFacts.

(** X1.  A heartbeat whose node name can be a key writes the entry and the
    last-seen time of that name, and leaves the entry and the time of every
    other name as they were. *)
Theorem heartbeat_touches_one_identity
    (fields : list (string * json)) (seen acked : datetime) (w : world)
    (k : pykey) :
  identity fields = Some k ->
  let w' := snd (serve (heartbeat_of (fields, seen, acked)) w) in
  connected_clients w' !! k = Some (descriptor fields) /\
  last_heartbeat w' !! k = Some seen /\
  forall k', k' <> k ->
    connected_clients w' !! k' = connected_clients w !! k' /\
    last_heartbeat w' !! k' = last_heartbeat w !! k'.
Proof.
  intros Hid. cbv zeta. unfold serve, heartbeat_of.
  rewrite (receive_heartbeat_registers _ _ _ _ _ Hid). simpl.
  rewrite !lookup_insert_eq. repeat split; rewrite lookup_insert_ne; congruence.
Qed.

Lemma heartbeat_touches_one_identity_witness :
  let w' := snd (serve (heartbeat_of (demo_fields, demo_time, demo_time)) initial) in
  connected_clients w' !! KStr "pumpkin" = Some (descriptor demo_fields) /\
  last_heartbeat w' !! KStr "pumpkin" = Some demo_time /\
  forall k', k' <> KStr "pumpkin" ->
    connected_clients w' !! k' = connected_clients initial !! k' /\
    last_heartbeat w' !! k' = last_heartbeat initial !! k'.
Proof. apply heartbeat_touches_one_identity. reflexivity. Defined.

Lemma serve_domains (r : request) (w : world) :
  dom (connected_clients w) = dom (last_heartbeat w) ->
  dom (connected_clients (snd (serve r w))) = dom (last_heartbeat (snd (serve r w))).
Proof.
  intros Hd. unfold serve.
  destruct r as [body seen acked | now up | now | net now name]; try exact Hd.
  - destruct (receive_heartbeat_cases body seen acked w) as (resp & w' & -> & Hw).
    simpl. destruct Hw as [-> | (fields & k & _ & _ & ->)]; [exact Hd|].
    simpl. rewrite !dom_insert_L. now rewrite Hd.
  - destruct (toggle_led_clients net now name w) as (resp & w' & -> & Hc & Hl).
    simpl. now rewrite Hc, Hl.
Qed.

(** X2.  After any sequence of requests served from the empty start, the
    registry and the table of last heartbeats have the same names. *)
Theorem registry_and_last_seen_agree (rs : list request) :
  dom (connected_clients (serve_all rs initial))
  = dom (last_heartbeat (serve_all rs initial)).
Proof.
  assert (H : forall w, dom (connected_clients w) = dom (last_heartbeat w) ->
            dom (connected_clients (serve_all rs w))
            = dom (last_heartbeat (serve_all rs w))).
  { induction rs as [|r rs IH]; intros w Hw; simpl; [exact Hw|].
    apply IH, serve_domains, Hw. }
  apply H. reflexivity.
Qed.

(** X3.  A heartbeat is answered 500 exactly when its [try] block fails (no
    JSON body, a body that is no object, a non-empty node name that cannot be
    a key) and 200 otherwise; a heartbeat that is refused leaves the whole
    state as it was, and no heartbeat sends anything. *)
Theorem refused_heartbeat_changes_nothing
    (body : pyexc + json) (seen acked : datetime) (w : world) :
  let out := serve (Heartbeat body seen acked) w in
  code (fst out) = (if refused body then 500 else 200) /\
  (refused body = true -> snd out = w) /\
  sent (snd out) = sent w.
Proof.
  cbv zeta. unfold serve.
  destruct body as [e | data]; [simpl; auto|].
  destruct data as [ | b | z | s | items | fields]; try (simpl; auto).
  unfold refused.
  destruct (truthy (dict_get fields "node" JNull)) eqn:Ht.
  - destruct (dict_key (dict_get fields "node" JNull)) as [k|] eqn:Hk.
    + assert (Hid : identity fields = Some k) by (unfold identity; now rewrite Ht).
      rewrite (receive_heartbeat_registers _ _ _ _ _ Hid). simpl.
      repeat split; discriminate.
    + unfold receive_heartbeat, try_except, bind, lift, get, ret, raise,
        set_connected_client, unhashable. simpl. rewrite Ht. simpl. rewrite Hk.
      simpl. auto.
  - rewrite (receive_heartbeat_skips _ _ _ _ Ht). simpl. repeat split; discriminate.
Qed.


Lemma refused_heartbeat_changes_nothing_witness :
  snd (serve (Heartbeat (inr (JObj [("node", JArr [JStr "pumpkin"])]))
                demo_time demo_time) demo_world) = demo_world.
Proof.
  apply (refused_heartbeat_changes_nothing
           (inr (JObj [("node", JArr [JStr "pumpkin"])])) demo_time demo_time
           demo_world).
  reflexivity.
Defined.

(** X4.  A registered heartbeat raises the client count by one when its name
    is new, and leaves the count when the name is known. *)
Theorem count_grows_with_new_identities
    (fields : list (string * json)) (seen acked : datetime) (w : world)
    (k : pykey) :
  identity fields = Some k ->
  count (snd (serve (heartbeat_of (fields, seen, acked)) w))
  = count w + match connected_clients w !! k with Some _ => 0 | None => 1 end.
Proof.
  intros Hid. unfold serve, heartbeat_of, count.
  rewrite (receive_heartbeat_registers _ _ _ _ _ Hid). simpl.
  destruct (connected_clients w !! k) as [old|] eqn:Hk.
  - rewrite <- (insert_id _ _ _ Hk) at 2.
    rewrite <- (insert_delete_eq (connected_clients w) k old).
    rewrite <- (insert_delete_eq (connected_clients w) k (descriptor fields)).
    rewrite !map_size_insert_None by apply lookup_delete_eq. lia.
  - rewrite map_size_insert_None by exact Hk. lia.
Qed.

Lemma count_grows_with_new_identities_witness :
  count (snd (serve (heartbeat_of (demo_fields, demo_time, demo_time)) demo_world))
  = count demo_world
    + match connected_clients demo_world !! KStr "pumpkin" with
      | Some _ => 0
      | None => 1
      end.
Proof. apply count_grows_with_new_identities. reflexivity. Defined.

(** X5.  [get_status], [list_nodes] and [toggle_led] never change the registry
    or the table of last heartbeats; only a heartbeat does. *)
Theorem queries_and_relay_read_only (r : request) (w : world) :
  match r with
  | Heartbeat _ _ _ => True
  | _ => connected_clients (snd (serve r w)) = connected_clients w /\
         last_heartbeat (snd (serve r w)) = last_heartbeat w
  end.
Proof.
  destruct r as [body seen acked | now up | now | net now name];
    [exact I | now split | now split |].
  unfold serve.
  destruct (toggle_led_clients net now name w) as (resp & w' & -> & Hc & Hl).
  now split.
Qed.



(** X7.  When the node answers with a status other than 200, the relay answers
    with that same status and the message [Node responded with status <code>]. *)
Theorem relay_passes_remote_status
    (net : outbound -> pyexc + reply) (now : datetime) (node_name : string)
    (w : world) (info : node_info) (r : reply) :
  connected_clients w !! KStr node_name = Some info ->
  truthy (ip info) = true ->
  net (led_request node_name info) = inr r ->
  status_code r <> 200 ->
  fst (serve (ToggleLed net now node_name) w)
  = failure (status_code r)
      ("Node responded with status " +:+ Z_to_string (status_code r)).
Proof.
  intros Hk Hip Hnet Hcode. unfold serve, toggle_led, try_except, bind, ret,
    read_connected_clients, requests_post. simpl. rewrite Hk, Hip. simpl.
  unfold led_request in Hnet. rewrite Hnet.
  apply Z.eqb_neq in Hcode. rewrite Hcode. reflexivity.
Qed.

Lemma relay_passes_remote_status_witness :
  fst (serve (ToggleLed demo_no_led demo_time "pumpkin") demo_world)
  = failure 404 ("Node responded with status " +:+ Z_to_string 404).
Proof.
  apply (relay_passes_remote_status demo_no_led demo_time "pumpkin" demo_world
           (descriptor demo_fields)
           {| status_code := 404;
              reply_json := Some (JObj [("success", JBool false);
                                        ("message", JStr "No LED devices available")]) |}).
  - vm_compute. reflexivity.
  - reflexivity.
  - reflexivity.
  - discriminate.
Defined.

(** X8.  When the node answers 200 with a body that is no JSON object, the
    relay answers 500 with a message that begins [Error: ]; the request has
    been sent once. *)
Theorem relay_rejects_unreadable_success
    (net : outbound -> pyexc + reply) (now : datetime) (node_name : string)
    (w : world) (info : node_info) (body : option json) :
  connected_clients w !! KStr node_name = Some info ->
  truthy (ip info) = true ->
  net (led_request node_name info)
    = inr {| status_code := 200; reply_json := body |} ->
  (forall fields, body <> Some (JObj fields)) ->
  exists message,
    fst (serve (ToggleLed net now node_name) w) = failure 500 ("Error: " +:+ message) /\
    sent (snd (serve (ToggleLed net now node_name) w))
      = sent w ++ [led_request node_name info].
Proof.
  intros Hk Hip Hnet Hbody. unfold serve, toggle_led, try_except, bind, ret,
    raise, get, read_connected_clients, requests_post, response_json.
  simpl. rewrite Hk, Hip. simpl.
  unfold led_request in Hnet. rewrite Hnet. simpl.
  destruct body as [data|]; simpl; [|eauto].
  destruct data; simpl; eauto.
  exfalso. eapply Hbody. reflexivity.
Qed.

Lemma relay_rejects_unreadable_success_witness :
  exists message,
    fst (serve (ToggleLed demo_html demo_time "pumpkin") demo_world)
      = failure 500 ("Error: " +:+ message) /\
    sent (snd (serve (ToggleLed demo_html demo_time "pumpkin") demo_world))
      = sent demo_world ++ [led_request "pumpkin" (descriptor demo_fields)].
Proof.
  apply (relay_rejects_unreadable_success demo_html demo_time "pumpkin" demo_world
           (descriptor demo_fields) None).
  - vm_compute. reflexivity.
  - reflexivity.
  - reflexivity.
  - discriminate.
Defined.

(** X9.  The relay goes to the address of the latest heartbeat: after a
    heartbeat of a node with a non-empty address, a toggle for that node sends
    one request, to [http://<ip>:5000/<node>/api/v1/actuators/led] with the
    body [{state: toggle}] and a timeout of five seconds, whatever the node
    then answers. *)
Theorem relay_follows_latest_heartbeat
    (net : outbound -> pyexc + reply) (now seen acked : datetime)
    (node_name : string) (fields : list (string * json)) (w : world) :
  identity fields = Some (KStr node_name) ->
  truthy (dict_get fields "ip" JNull) = true ->
  let w1 := snd (serve (heartbeat_of (fields, seen, acked)) w) in
  sent (snd (serve (ToggleLed net now node_name) w1))
  = sent w ++
    [{| url := "http://" +:+ py_str (dict_get fields "ip" JNull) +:+ ":5000/"
               +:+ node_name +:+ "/api/v1/actuators/led";
        json_body := JObj [("state", JStr "toggle")];
        timeout := 5 |}].
Proof.
  intros Hid Hip. cbv zeta. unfold serve at 2, heartbeat_of.
  rewrite (receive_heartbeat_registers _ _ _ _ _ Hid). cbn [snd].
  unfold serve, toggle_led, try_except, bind, ret, read_connected_clients,
    requests_post. simpl. rewrite lookup_insert_eq. simpl. rewrite Hip. simpl.
  destruct (net _) as [e | r]; simpl.
  - destruct (is_Timeout e); [reflexivity|].
    destruct (is_ConnectionError e); reflexivity.
  - destruct (status_code r =? 200); [|reflexivity].
    unfold response_json, raise, get.
    destruct (reply_json r) as [data|]; [|reflexivity].
    destruct data; reflexivity.
Qed.

Lemma relay_follows_latest_heartbeat_witness :
  let w1 := snd (serve (heartbeat_of (demo_moved, demo_time, demo_time)) demo_world) in
  sent (snd (serve (ToggleLed demo_refused demo_time "pumpkin") w1))
  = sent demo_world ++
    [{| url := "http://" +:+ py_str (dict_get demo_moved "ip" JNull) +:+ ":5000/"
               +:+ "pumpkin" +:+ "/api/v1/actuators/led";
        json_body := JObj [("state", JStr "toggle")];
        timeout := 5 |}].
Proof.
  apply (relay_follows_latest_heartbeat demo_refused demo_time demo_time demo_time
           "pumpkin" demo_moved demo_world); reflexivity.
Defined.

End DashboardMore.

(** ** The monitor loop *)

Module MonitorFacts.
Import Py PySplit Esp32Logger Esp32Monitor PyFacts.

Lemma split_upto_done (sep : string) (n : nat) (cur s : string) :
  (n <= String.length s)%nat ->
  split_upto sep 0 n cur s = [cur +:+ drop_chars n s].
Proof.
  revert n. induction s as [|c s IH]; intros n Hn; simpl in Hn.
  - assert (n = 0%nat) as -> by lia. simpl. now rewrite append_empty_r.
  - destruct n as [|n]; [reflexivity|]. simpl. apply IH. lia.
Qed.

(** One cut: the text before the first separator, and all the text behind. *)
Lemma split_upto_once (sep s cur : string) :
  sep <> "" ->
  split_upto sep 1 0 cur s =
    if contains sep s
    then [cur +:+ before_first sep s; after_first sep s]
    else [cur +:+ s].
Proof.
  intros Hsep. revert cur. induction s as [|c s IH]; intros cur.
  - cbn [split_upto contains]. rewrite (prefix_nonempty_nil _ Hsep).
    cbn [orb]. now rewrite append_empty_r.
  - cbn [split_upto contains before_first after_first].
    destruct (String.prefix sep (String c s)) eqn:Hp.
    + cbn [orb]. rewrite append_empty_r. f_equal.
      pose proof (prefix_length _ _ Hp) as Hlen.
      destruct sep as [|d sep]; [congruence|]. simpl in Hlen.
      cbn [String.length drop_chars].
      replace (S (String.length sep) - 1)%nat with (String.length sep) by lia.
      rewrite split_upto_done by lia. reflexivity.
    + cbn [orb]. rewrite IH. destruct (contains sep s); now rewrite append_snoc.
Qed.

Lemma drop_chars_length (n : nat) (s : string) :
  String.length (drop_chars n s) = (String.length s - n)%nat.
Proof.
  revert s. induction n as [|n IH]; intros [|c s]; simpl; try lia. apply IH.
Qed.

Lemma after_first_shorter (sep s : string) :
  sep <> "" -> contains sep s = true ->
  (String.length (after_first sep s) < String.length s)%nat.
Proof.
  intros Hsep. induction s as [|c s IH]; cbn [contains after_first].
  - rewrite (prefix_nonempty_nil _ Hsep). discriminate.
  - destruct (String.prefix sep (String c s)) eqn:Hp; cbn [orb].
    + intros _. rewrite drop_chars_length.
      apply prefix_length in Hp. destruct sep; [congruence|]. simpl in *. lia.
    + intros Hc. apply IH in Hc. simpl. lia.
Qed.

Lemma newline_nonempty : newline <> "".
Proof. discriminate. Qed.

Lemma take_line_eq (stamps : nat -> string) (st : monitor) :
  take_line stamps st =
    if contains newline (buffer st) then
      let text := strip (before_first newline (buffer st)) in
      Some {| buffer := after_first newline (buffer st);
              files := process_line text (stamps (stamped st)) (files st);
              stamped := if String.eqb text "" then stamped st
                         else S (stamped st) |}
    else None.
Proof.
  unfold take_line. rewrite (split_upto_once _ _ _ newline_nonempty).
  destruct (contains newline (buffer st)); reflexivity.
Qed.

Lemma take_line_shorter (stamps : nat -> string) (st st' : monitor) :
  take_line stamps st = Some st' ->
  (String.length (buffer st') < String.length (buffer st))%nat.
Proof.
  rewrite take_line_eq. destruct (contains newline (buffer st)) eqn:Hc; [|discriminate].
  intros [= <-]. simpl. apply after_first_shorter; [discriminate | exact Hc].
Qed.

(** With fuel beyond the length of the buffer the loop runs to its end. *)
Lemma drain_stops (fuel : nat) (stamps : nat -> string) (st : monitor) :
  (String.length (buffer st) < fuel)%nat ->
  take_line stamps (drain fuel stamps st) = None /\
  (String.length (buffer (drain fuel stamps st)) <= String.length (buffer st))%nat.
Proof.
  revert st. induction fuel as [|f IH]; intros st Hf; [lia|].
  cbn [drain]. destruct (take_line stamps st) as [st'|] eqn:Ht.
  - pose proof (take_line_shorter _ _ _ Ht) as Hs.
    destruct (IH st' ltac:(lia)) as [H1 H2]. split; [exact H1 | lia].
  - split; [exact Ht | lia].
Qed.








(** X10.  After a read has been handled, the buffer of [monitor_loop] holds no
    line feed: every complete line has been taken out. *)
Theorem monitor_read_leaves_partial_line
    (stamps : nat -> string) (data : string) (st : monitor) :
  contains newline (buffer (monitor_read stamps data st)) = false.
Proof.
  unfold monitor_read.
  match goal with |- context [drain (S ?n) _ ?s] =>
    destruct (drain_stops (S n) stamps s) as [Hnone _]; [cbn [buffer]; lia|]
  end.
  rewrite take_line_eq in Hnone.
  destruct (contains newline _); [discriminate | reflexivity].
Qed.





Lemma no_char_all_differ (c0 : ascii) (s : string) :
  contains (String c0 "") s = false -> all_chars (differs c0) s = true.
Proof.
  induction s as [|c s IH]; [reflexivity|].
  cbn [contains all_chars String.prefix]. unfold differs at 1.
  destruct (ascii_dec c0 c) as [->|Hne].
  - destruct s; discriminate.
  - cbn [orb]. intros Hc. rewrite (IH Hc).
    apply Ascii.eqb_neq in Hne. now rewrite Hne.
Qed.

Lemma after_first_other (c0 : ascii) (sep s b : string) :
  all_chars (differs c0) s = true ->
  after_first (String c0 sep) (s +:+ String c0 sep +:+ b) = b.
Proof.
  induction s as [|c s IH].
  - intros _. apply (after_first_app (String c0 sep) b).
  - cbn [all_chars]. intros H. apply andb_true_iff in H as [Hc Hs].
    rewrite append_cons. cbn [after_first].
    now rewrite (prefix_other_head _ _ _ _ Hc), (IH Hs).
Qed.

(** X12.  When the buffer and the data hold no line feed, a read of the data
    followed by a line feed hands the pending line, stripped, to
    [process_line] once and leaves the buffer empty; a line that is empty
    after stripping takes no clock reading. *)
Theorem monitor_read_completes_line
    (stamps : nat -> string) (text : string) (st : monitor) :
  contains newline (buffer st) = false ->
  contains newline text = false ->
  monitor_read stamps (text +:+ newline) st =
    let line := strip (buffer st +:+ text) in
    {| buffer := "";
       files := process_line line (stamps (stamped st)) (files st);
       stamped := if String.eqb line "" then stamped st else S (stamped st) |}.
Proof.
  intros Hb Ht. unfold monitor_read. cbn [drain buffer files stamped].
  assert (Hall : all_chars (differs (ascii_of_N 10)) (buffer st +:+ text) = true).
  { rewrite all_chars_app.
    rewrite (no_char_all_differ _ _ Hb), (no_char_all_differ _ _ Ht). reflexivity. }
  assert (Heq : buffer st +:+ text +:+ newline
                = (buffer st +:+ text) +:+ newline +:+ "")
    by now rewrite append_assoc, append_empty_r.
  rewrite take_line_eq. cbn [buffer files stamped]. rewrite Heq.
  unfold newline. rewrite contains_app.
  rewrite (before_first_app _ "" _ "" Hall).
  rewrite (after_first_other _ "" _ "" Hall).
  cbv zeta. destruct (String.length _); reflexivity.
Qed.


Lemma monitor_read_completes_line_witness :
  monitor_read (fun _ => "2025-01-01T00:00:00") ("offline " +:+ newline)
    {| buffer := "Primary AP: "; files := init_csv_log; stamped := 0 |}
  = let line := strip ("Primary AP: " +:+ "offline ") in
    {| buffer := "";
       files := process_line line "2025-01-01T00:00:00" init_csv_log;
       stamped := if String.eqb line "" then 0%nat else 1%nat |}.
Proof.
  apply (monitor_read_completes_line (fun _ => "2025-01-01T00:00:00") "offline "
           {| buffer := "Primary AP: "; files := init_csv_log; stamped := 0 |});
    reflexivity.
Defined.

End MonitorFacts.

(** ** The failover logger over a run *)

Module Esp32LoggerMore.
Import Py Esp32Logger Esp32Monitor PyFacts Esp32LoggerFacts.

Lemma process_line_files (line ts : string) (l : logs) :
  raw_log (process_line line ts l)
    = raw_log l ++ (if String.eqb line "" then []
                    else [ts +:+ " | " +:+ line +:+ newline]) /\
  events_log (process_line line ts l)
    = events_log l ++ (if String.eqb line "" then []
                       else if classified (event_of (line, ts))
                       then [csv_row (event_of (line, ts))] else []).
Proof.
  unfold process_line, classified, event_of. cbn [fst snd].
  destruct (String.eqb line "") eqn:He; [now rewrite !app_nil_r|].
  match goal with |- context [detect_events line ts ?l1] =>
    destruct (detect_events_files line ts l1) as (Hraw & Hev & _);
    rewrite (detect_events_event line ts l1) in Hev
  end.
  rewrite Hraw, Hev. cbn [raw_log events_log]. split; [reflexivity|].
  destruct (String.eqb _ "unknown"); reflexivity.
Qed.

(** What a run appends to the CSV file. *)
Lemma events_log_appended (inputs : list (string * string)) (l : logs) :
  events_log (process_all inputs l)
  = events_log l ++
    map csv_row
      (filter (fun e => Is_true (classified e))
         (map event_of (filter (fun input => fst input <> "") inputs))).
Proof.
  unfold process_all. revert l. induction inputs as [|[line ts] inputs IH]; intros l.
  - simpl. now rewrite app_nil_r.
  - cbn [foldl fst snd]. rewrite IH.
    destruct (process_line_files line ts l) as [_ ->].
    rewrite <- app_assoc. f_equal.
    destruct (String.eqb line "") eqn:He.
    + apply String.eqb_eq in He. subst line.
      rewrite filter_cons_False by (cbn; congruence). reflexivity.
    + apply String.eqb_neq in He.
      rewrite filter_cons_True by exact He. cbn [map].
      destruct (classified (event_of (line, ts))) eqn:Hcl.
      * rewrite filter_cons_True by (rewrite Hcl; exact I). reflexivity.
      * rewrite filter_cons_False by (rewrite Hcl; exact id). reflexivity.
Qed.

(** X13.  The CSV file of a run is the header followed by one row for each
    non-empty line that was classified, in the order of arrival and each with
    its own clock reading. *)
Theorem events_log_of_run (inputs : list (string * string)) :
  events_log (process_all inputs init_csv_log)
  = csv_header ::
    map csv_row
      (filter (fun e => Is_true (classified e))
         (map event_of
            (filter (fun input => fst input <> "") inputs))).
Proof. rewrite events_log_appended. reflexivity. Qed.

(** X14.  Every row of the CSV file has as many cells as the header; the raw
    log has one entry for each non-empty line; and the event of a line carries
    the clock reading in [timestamp] and the line itself in [details]. *)
Theorem csv_rows_are_well_formed (inputs : list (string * string)) :
  Forall (fun row => length row = length csv_header)
    (events_log (process_all inputs init_csv_log)) /\
  length (raw_log (process_all inputs init_csv_log))
    = length (filter (fun input => fst input <> "") inputs) /\
  forall input, timestamp (event_of input) = snd input /\
                details (event_of input) = fst input.
Proof.
  split; [|split].
  - rewrite events_log_appended. constructor; [reflexivity|].
    apply Forall_forall. intros row Hin. apply list_elem_of_In, in_map_iff in Hin.
    destruct Hin as (e & <- & _). reflexivity.
  - assert (H : forall l, length (raw_log (process_all inputs l))
              = (length (raw_log l)
                 + length (filter (fun input => fst input <> "") inputs))%nat).
    { unfold process_all. induction inputs as [|[line ts] inputs IH]; intros l.
      - simpl. lia.
      - cbn [foldl fst snd]. rewrite IH.
        destruct (process_line_files line ts l) as [-> _]. rewrite length_app.
        destruct (String.eqb line "") eqn:He.
        + apply String.eqb_eq in He. subst line.
          rewrite filter_cons_False by (cbn; congruence). simpl. lia.
        + apply String.eqb_neq in He.
          rewrite filter_cons_True by exact He. simpl. lia. }
    rewrite H. reflexivity.
  - intros [line ts]. unfold event_of. cbn [fst snd].
    unfold detect_events, classify, extract_signal, extract_mac.
    repeat match goal with
           | |- context [if ?b then _ else _] => destruct b
           | |- context [match ?o with Some _ => _ | None => _ end] => destruct o
           end; split; reflexivity.
Qed.

(** The two extraction blocks leave the columns of the classifier alone. *)
Lemma detect_events_columns (line ts : string) (l : logs) :
  let e := fst (detect_events line ts l) in
  let c := classify line ts (blank line ts, l) in
  event_type e = event_type (fst c) /\
  primary_ap_status e = primary_ap_status (fst c) /\
  backup_ap_status e = backup_ap_status (fst c) /\
  failover_detected e = failover_detected (fst c) /\
  failover_log (snd (detect_events line ts l)) = failover_log (snd c).
Proof.
  cbv zeta. unfold detect_events. fold (blank line ts).
  destruct (classify line ts (blank line ts, l)) as [e1 l1]. cbn [fst snd].
  assert (H : forall e, event_type (extract_mac line (extract_signal line e))
                        = event_type e /\
                        primary_ap_status (extract_mac line (extract_signal line e))
                        = primary_ap_status e /\
                        backup_ap_status (extract_mac line (extract_signal line e))
                        = backup_ap_status e /\
                        failover_detected (extract_mac line (extract_signal line e))
                        = failover_detected e).
  { intros e. unfold extract_mac, extract_signal.
    repeat match goal with
           | |- context [if ?b then _ else _] => destruct b
           | |- context [match ?o with Some _ => _ | None => _ end] => destruct o
           end; repeat split; reflexivity. }
  destruct (H e1) as (H1 & H2 & H3 & H4).
  destruct (negb _); cbn [fst snd]; rewrite H1, H2, H3, H4; repeat split.
Qed.

Ltac classify_cases :=
  unfold classify;
  repeat match goal with
         | |- context [if contains ?a ?b then _ else _] =>
             destruct (contains a b) eqn:?
         end.

(** X15.  The failover flag, the kind [failover] and the three lines in the
    failover file go together: each is there exactly when the line contains
    [FAILOVER DETECTED], whatever else the line says. *)
Theorem failover_is_recorded_three_ways (line ts : string) (l : logs) :
  let out := detect_events line ts l in
  failover_detected (fst out) = contains "FAILOVER DETECTED" line /\
  (event_type (fst out) = "failover" <-> contains "FAILOVER DETECTED" line = true) /\
  failover_log (snd out)
  = failover_log l ++
    (if contains "FAILOVER DETECTED" line
     then [ts +:+ " | FAILOVER EVENT" +:+ newline;
           "Details: " +:+ line +:+ newline;
           dashes +:+ newline]
     else []).
Proof.
  cbv zeta.
  destruct (detect_events_columns line ts l) as (-> & _ & _ & -> & ->).
  classify_cases; cbn; rewrite ?app_nil_r; repeat split; auto;
    try congruence; try discriminate.
Qed.

(** X16.  The kind of an event is one of the eight that the classifier knows,
    and each of the two status columns says [online] or [offline] exactly for
    the kind of that name and [unknown] for every other kind. *)
Theorem kinds_and_status_columns (line ts : string) (l : logs) :
  let e := fst (detect_events line ts l) in
  event_type e ∈ event_kinds /\
  primary_ap_status e =
    (if String.eqb (event_type e) "primary_ap_online" then "online"
     else if String.eqb (event_type e) "primary_ap_offline" then "offline"
     else "unknown") /\
  backup_ap_status e =
    (if String.eqb (event_type e) "backup_ap_online" then "online"
     else if String.eqb (event_type e) "backup_ap_offline" then "offline"
     else "unknown").
Proof.
  cbv zeta. unfold event_kinds.
  destruct (detect_events_columns line ts l) as (-> & -> & -> & _).
  classify_cases; cbn; (split; [|split; reflexivity]);
    repeat (first [apply list_elem_of_here | apply list_elem_of_further]).
Qed.

(** X17.  The access point address is the stripped text between the first
    [BSSID:] and the next one (or the end of the line), whatever the kind of
    the event, and empty when the line has no [BSSID:]; the indexing cannot
    fail. *)
Theorem mac_is_text_behind_marker (line ts : string) (l : logs) :
  active_ap_mac (fst (detect_events line ts l)) =
    if contains "BSSID:" line
    then strip (before_first "BSSID:" (after_first "BSSID:" line))
    else "".
Proof.
  destruct (detect_events_unfold line ts l) as (e1 & l1 & Hc & ->). cbn [fst].
  pose proof (classify_keeps line ts
    {| timestamp := ts; event_type := "unknown";
       primary_ap_status := "unknown"; backup_ap_status := "unknown";
       active_ap_mac := ""; signal_strength := 0;
       failover_detected := false; details := line |} l) as Hk.
  cbv zeta in Hk. rewrite Hc in Hk. cbn [fst snd active_ap_mac] in Hk.
  destruct Hk as (_ & Hmac & _).
  assert (Hsig : active_ap_mac (extract_signal line e1) = active_ap_mac e1).
  { unfold extract_signal.
    repeat match goal with
           | |- context [if ?b then _ else _] => destruct b
           | |- context [match ?o with Some _ => _ | None => _ end] => destruct o
           end; reflexivity. }
  unfold extract_mac. destruct (contains "BSSID:" line) eqn:Hb.
  - rewrite (split_second "BSSID:" line ltac:(discriminate) Hb). reflexivity.
  - now rewrite Hsig, Hmac.
Qed.

End Esp32LoggerMore.

(** ** The auto-off timers *)

Module ClientMore.
Import Py Client ClientTimers ClientFacts.

(** X18.  With no further command, an LED that is switched on stays lit for
    every second short of the auto-off period and is dark, with no timer on
    record, when the period has passed. *)
Theorem auto_off_after_period (m : manager) (name : string) (b : bool) :
  reachable m ->
  devices m !! name = Some (LED b) ->
  let D := led_auto_off_time m in
  let m1 := snd (control_led name "on" m) in
  (forall k : nat, Z.of_nat k < D -> lit name (wait k m1) = true) /\
  idle name (wait (Z.to_nat D) m1).
Proof.
  intros Hreach Hdev D m1.
  destruct (reachable_invariant m Hreach) as [Hrec Hpos].
  destruct (on_arms name b m Hpos Hdev) as [Harm _]. fold m1 D in Harm.
  pose proof (control_led_on_record name "on" m Hrec) as Hrec1. fold m1 in Hrec1.
  destruct (control_led_config name "on" m) as (_ & Hck & _). fold m1 in Hck.
  rewrite <- Hck in Harm.
  split.
  - intros k Hk.
    destruct (wait_armed name _ _ k m1 Hrec1 Harm) as (_ & Ha & _); [lia|].
    exact (armed_lit _ _ _ _ Ha).
  - replace (Z.to_nat D) with (S (Z.to_nat (D - 1))) by (subst D; lia).
    rewrite wait_snoc.
    destruct (wait_armed name _ _ (Z.to_nat (D - 1)) m1 Hrec1 Harm)
      as (Hr & Ha & Hc & _); [subst D; lia|].
    apply (tick_armed_due name _ _ _ Hr Ha). subst D. lia.
Qed.

Lemma auto_off_after_period_witness :
  let m1 := snd (control_led "led_2" "on" demo_manager) in
  lit "led_2" (wait 299 m1) = true /\ idle "led_2" (wait 300 m1).
Proof.
  assert (Hreach : reachable demo_manager)
    by (exists board, 0, [Call "led_1" "on"; Tick; Tick]; reflexivity).
  assert (Hdev : devices demo_manager !! "led_2" = Some (LED false))
    by (vm_compute; reflexivity).
  destruct (auto_off_after_period demo_manager "led_2" false Hreach Hdev)
    as [Hlit Hoff].
  split; [apply (Hlit 299%nat); vm_compute; reflexivity | exact Hoff].
Defined.

(** X19.  In a reachable state no LED has two timers that are still to run. *)
Theorem one_pending_timer_per_led
    (m : manager) (h1 h2 : nat) (t1 t2 : timer) :
  reachable m ->
  timers m !! h1 = Some t1 -> timers m !! h2 = Some t2 ->
  finished t1 = false -> finished t2 = false ->
  led t1 = led t2 ->
  h1 = h2.
Proof.
  intros Hreach H1 H2 Hf1 Hf2 Hled.
  destruct (reachable_invariant m Hreach) as [Hrec _].
  pose proof (Hrec h1 t1 H1 Hf1) as R1. pose proof (Hrec h2 t2 H2 Hf2) as R2.
  rewrite Hled in R1. congruence.
Qed.

Lemma one_pending_timer_per_led_witness :
  let m := run [Call "led_1" "on"; Tick; Call "led_1" "on"] (new_manager board 0) in
  timers m !! 1%nat = Some {| led := "led_1"; due := 301; finished := false |} /\
  1%nat = 1%nat.
Proof.
  cbv zeta. split; [vm_compute; reflexivity|].
  apply (one_pending_timer_per_led
           (run [Call "led_1" "on"; Tick; Call "led_1" "on"] (new_manager board 0))
           1 1 {| led := "led_1"; due := 301; finished := false |}
           {| led := "led_1"; due := 301; finished := false |});
    try reflexivity.
  exists board, 0, [Call "led_1" "on"; Tick; Call "led_1" "on"]. reflexivity.
Defined.

(** X20.  A call of [control_led] that reports [success: False] has changed
    nothing: devices, commanded states and timers are as before. *)
Theorem failed_call_changes_nothing (name action : string) (m : manager) :
  match fst (control_led name action m) with
  | JObj fields => dict_get fields "success" JNull = JBool false
  | _ => False
  end ->
  snd (control_led name action m) = m.
Proof.
  unfold control_led.
  destruct (devices m !! name) as [dev|]; [|reflexivity].
  repeat match goal with
         | |- context [if ?b then _ else _] => destruct b
         | |- context [match ?o with inl _ => _ | inr _ => _ end] => destruct o
         end; cbn; try reflexivity; discriminate.
Qed.

Lemma failed_call_changes_nothing_witness :
  snd (control_led "button_1" "on" demo_manager) = demo_manager.
Proof. apply failed_call_changes_nothing. vm_compute. reflexivity. Defined.


(** *** What a step can do to the timers *)

Lemma clear_timers (n : string) (m : manager) (h : nat) :
  exists b : bool,
    timers (_clear_auto_off_timer n m) !! h
    = (fun t => if b then finish t else t) <$> timers m !! h.
Proof.
  unfold _clear_auto_off_timer.
  destruct (led_timers m !! n) as [h0|]; cbn [timers].
  - destruct (decide (h0 = h)) as [->|Hne].
    + exists true. apply list_lookup_alter_eq.
    + exists false. rewrite list_lookup_alter_ne by exact Hne.
      now destruct (timers m !! h).
  - exists false. now destruct (timers m !! h).
Qed.

(** After a call, a timer is an old one, perhaps finished by now, or the one
    the call has started. *)
Lemma control_led_timers (n action : string) (m : manager) (h : nat) (t' : timer) :
  timers (snd (control_led n action m)) !! h = Some t' ->
  (exists t, timers m !! h = Some t /\ (t' = t \/ t' = finish t)) \/
  (0 < led_auto_off_time m /\
   t' = {| led := n; due := clock m + led_auto_off_time m; finished := false |}).
Proof.
  assert (Hold : forall m0, timers m0 = timers m ->
            timers (_clear_auto_off_timer n m0) !! h = Some t' ->
            exists t, timers m !! h = Some t /\ (t' = t \/ t' = finish t)).
  { intros m0 Hm0 Ht. destruct (clear_timers n m0 h) as [b Hb].
    rewrite Hb, Hm0 in Ht. destruct (timers m !! h) as [t|]; [|discriminate].
    injection Ht as <-. exists t. split; [reflexivity|]. destruct b; auto. }
  assert (Hset : forall m0, timers m0 = timers m -> clock m0 = clock m ->
            led_auto_off_time m0 = led_auto_off_time m ->
            timers (_set_auto_off_timer n m0) !! h = Some t' ->
            (exists t, timers m !! h = Some t /\ (t' = t \/ t' = finish t)) \/
            (0 < led_auto_off_time m /\
             t' = {| led := n; due := clock m + led_auto_off_time m;
                     finished := false |})).
  { intros m0 Hm0 Hc0 Hd0. unfold _set_auto_off_timer.
    destruct (0 <? led_auto_off_time m0) eqn:Hpos.
    - cbn [timers]. intros Ht. apply lookup_app_Some in Ht as [Ht | [_ Ht]].
      + left. now apply (Hold m0).
      + right. apply Z.ltb_lt in Hpos. split; [lia|].
        destruct (h - _)%nat as [|k]; [|destruct k; discriminate].
        simpl in Ht. injection Ht as <-.
        unfold _clear_auto_off_timer.
        destruct (led_timers m0 !! n); cbn; now rewrite Hc0, Hd0.
    - intros Ht. left. rewrite Hm0 in Ht. eauto. }
  unfold control_led.
  destruct (devices m !! n) as [dev|]; [|intros Ht; left; eauto].
  repeat match goal with
         | |- context [if ?b then _ else _] => destruct b
         | |- context [match ?o with inl _ => _ | inr _ => _ end] => destruct o
         end; cbn [snd];
    try (intros Ht; left; now eauto);
    try (apply Hset; reflexivity);
    try (intros Ht; left; eapply Hold; [|exact Ht]; reflexivity).
Qed.

Lemma off_timers (n : string) (m : manager) (h : nat) :
  exists b : bool,
    timers (snd (control_led n "off" m)) !! h
    = (fun t => if b then finish t else t) <$> timers m !! h.
Proof.
  rewrite control_led_off_eq.
  destruct (devices m !! n) as [dev|];
    [destruct (dev_off dev) as [e|d]|];
    try (exists false; now destruct (timers m !! h)).
  apply (clear_timers n (set_last_led_state n false (set_device n d m)) h).
Qed.

Lemma fire_timers (h h' : nat) (m : manager) (t' : timer) :
  timers (fire h m) !! h' = Some t' ->
  exists t, timers m !! h' = Some t /\ (t' = t \/ t' = finish t) /\
            (h' = h -> finished t' = true \/ clock m < due t').
Proof.
  unfold fire. destruct (timers m !! h) as [t0|] eqn:H0.
  - destruct (finished t0 || (clock m <? due t0)) eqn:Hc.
    + intros Ht. exists t'. split; [exact Ht|]. split; [now left|].
      intros ->. rewrite H0 in Ht. injection Ht as <-.
      apply orb_true_iff in Hc as [Hf | Hlt]; [now left | right; lia].
    + cbn [timers set_finished]. intros Ht.
      destruct (off_timers (led t0) m h') as [b Hb].
      destruct (decide (h = h')) as [<-|Hne].
      * rewrite H0 in Hb. rewrite list_lookup_alter_eq, Hb in Ht. cbn in Ht.
        injection Ht as <-. exists t0. split; [exact H0|].
        split; [destruct b; auto | intros _; destruct b; now left].
      * rewrite list_lookup_alter_ne, Hb in Ht by exact Hne.
        destruct (timers m !! h') as [t|]; [|discriminate]. injection Ht as <-.
        exists t. split; [reflexivity|]. split; [destruct b; auto | congruence].
  - intros Ht. exists t'. split; [exact Ht|]. split; [now left|].
    intros ->. congruence.
Qed.


Lemma fire_not_overdue (h : nat) (done : list nat) (m : manager) :
  not_overdue done m -> not_overdue (h :: done) (fire h m).
Proof.
  intros Hinv h' t' Ht' Hf'.
  destruct (fire_config h m) as (_ & Hck & _). rewrite Hck.
  destruct (fire_timers _ _ _ _ Ht') as (t & Ht & Hor & Hself).
  assert (Heq : t' = t) by (destruct Hor as [-> | ->]; [reflexivity | discriminate]).
  subst t'. destruct (Hinv h' t Ht Hf') as [Hle Hdone].
  split; [exact Hle|]. intros Hin. apply elem_of_cons in Hin as [-> | Hin].
  - destruct (Hself eq_refl) as [Hfin | Hlt]; [congruence | exact Hlt].
  - now apply Hdone.
Qed.

Lemma foldl_fire_not_overdue (hs done : list nat) (m : manager) :
  not_overdue done m ->
  not_overdue (rev hs ++ done) (foldl (fun acc h => fire h acc) m hs).
Proof.
  revert done m. induction hs as [|h hs IH]; intros done m Hinv; [exact Hinv|].
  cbn [foldl rev]. rewrite <- app_assoc. apply IH, fire_not_overdue, Hinv.
Qed.

Lemma tick_timers_length (m : manager) :
  length (timers (tick m)) = length (timers m).
Proof.
  unfold tick.
  apply (foldl_fire_invariant (fun m0 => length (timers m0) = length (timers m)));
    [|reflexivity].
  intros h m0 <-. now destruct (fire_config h m0) as (_ & _ & ->).
Qed.

(** X21.  In a reachable state every timer that is still to run is due later
    than the present second: none is late. *)
Theorem no_timer_is_overdue (m : manager) (h : nat) (t : timer) :
  reachable m ->
  timers m !! h = Some t -> finished t = false ->
  clock m < due t.
Proof.
  intros (devs & now & es & ->). revert h t.
  induction es as [|e es IH] using rev_ind; intros h t Ht Hf; [discriminate|].
  rewrite run_snoc in *. set (m := run es (new_manager devs now)) in *.
  assert (Hreach : reachable m) by (exists devs, now, es; reflexivity).
  destruct e as [n a | | v]; cbn [step] in *.
  - destruct (control_led_config n a m) as (_ & -> & _).
    destruct (control_led_timers _ _ _ _ _ Ht) as [(t0 & Ht0 & Hor) | (Hpos & ->)].
    + destruct Hor as [-> | ->]; [now apply (IH h) | discriminate].
    + simpl. lia.
  - assert (Hstart : not_overdue [] (set_clock (clock m + 1) m)).
    { intros h0 t0 Ht0 Hf0. cbn in *. split; [|intros Hin; inversion Hin].
      specialize (IH h0 t0 Ht0 Hf0). lia. }
    pose proof (foldl_fire_not_overdue (seq 0 (length (timers m))) [] _ Hstart) as Hend.
    fold (tick m) in Hend.
    destruct (Hend h t Ht Hf) as [_ Hlt]. apply Hlt.
    rewrite app_nil_r. apply list_elem_of_In, (proj1 (in_rev _ _)), in_seq.
    apply lookup_lt_Some in Ht. rewrite tick_timers_length in Ht. lia.
  - cbn in *. now apply (IH h).
Qed.

Lemma no_timer_is_overdue_witness :
  clock demo_manager < due {| led := "led_1"; due := 300; finished := false |}.
Proof.
  apply (no_timer_is_overdue demo_manager 0).
  - exists board, 0, [Call "led_1" "on"; Tick; Tick]. reflexivity.
  - vm_compute. reflexivity.
  - reflexivity.
Defined.





Lemma off_books (n : string) (m : manager) :
  books_agree m -> books_agree (snd (control_led n "off" m)).
Proof.
  intros Hb. rewrite control_led_off_eq.
  destruct (devices m !! n) as [dev|]; [|exact Hb].
  destruct (dev_off dev) as [e|d]; [exact Hb|].
  intros name. destruct (decide (name = n)) as [->|Hne].
  - rewrite clear_unregisters.
    unfold _clear_auto_off_timer; cbn.
    destruct (led_timers m !! n); cbn; rewrite lookup_insert_eq;
      split; [intros [? ?]; discriminate | discriminate
             | intros [? ?]; discriminate | discriminate].
  - unfold _clear_auto_off_timer; cbn.
    destruct (led_timers m !! n); cbn;
      rewrite ?lookup_delete_ne, lookup_insert_ne by congruence; apply Hb.
Qed.

Lemma on_books (n : string) (m : manager) :
  0 < led_auto_off_time m ->
  books_agree m -> books_agree (snd (control_led n "on" m)).
Proof.
  intros Hpos Hb. rewrite control_led_on_eq.
  destruct (devices m !! n) as [dev|]; [|exact Hb].
  destruct (dev_on dev) as [e|d]; [exact Hb|].
  unfold _set_auto_off_timer. cbn. apply Z.ltb_lt in Hpos. rewrite Hpos.
  intros name. destruct (decide (name = n)) as [->|Hne].
  - cbn. unfold _clear_auto_off_timer; cbn.
    destruct (led_timers m !! n); cbn; rewrite !lookup_insert_eq; split; eauto.
  - cbn. unfold _clear_auto_off_timer; cbn.
    destruct (led_timers m !! n); cbn;
      rewrite ?lookup_insert_ne, ?lookup_delete_ne by congruence; apply Hb.
Qed.

Lemma control_led_books (n action : string) (m : manager) :
  0 < led_auto_off_time m ->
  books_agree m -> books_agree (snd (control_led n action m)).
Proof.
  intros Hpos Hb.
  pose proof (on_books n m Hpos Hb) as Hon. pose proof (off_books n m Hb) as Hoff.
  rewrite control_led_on_eq in Hon. rewrite control_led_off_eq in Hoff.
  unfold control_led. destruct (devices m !! n) as [dev|]; [|exact Hb].
  repeat match goal with
         | |- context [if ?b then _ else _] => destruct b
         end;
    try (destruct (dev_on dev); [exact Hb | exact Hon]);
    try (destruct (dev_off dev); [exact Hb | exact Hoff]);
    try (destruct (dev_blink dev); exact Hb);
    try (destruct (dev_pulse dev); exact Hb);
    exact Hb.
Qed.

(** X23.  In a reachable state a name has a timer on record exactly when its
    last commanded state is on. *)
Theorem timer_records_follow_led_state (m : manager) (name : string) :
  reachable m ->
  is_Some (led_timers m !! name) <-> last_led_state m !! name = Some true.
Proof.
  intros (devs & now & es & ->). revert name.
  change (books_agree (run es (new_manager devs now))).
  induction es as [|e es IH] using rev_ind.
  - intros name. cbn. rewrite lookup_empty, lookup_fmap. split.
    + intros [? ?]; discriminate.
    + destruct (filter _ devs !! name); discriminate.
  - rewrite run_snoc. set (m := run es (new_manager devs now)) in *.
    assert (Hreach : reachable m) by (exists devs, now, es; reflexivity).
    destruct (reachable_invariant m Hreach) as [_ Hpos].
    destruct e as [n a | | v]; cbn [step].
    + apply control_led_books; assumption.
    + unfold tick. apply foldl_fire_invariant; [|exact IH].
      intros h m0 Hb0.
      destruct (fire_cases h m0) as [-> | (t' & _ & _ & _ & ->)]; [exact Hb0|].
      exact (off_books (led t') m0 Hb0).
    + exact IH.
Qed.

Lemma timer_records_follow_led_state_witness :
  is_Some (led_timers demo_manager !! "led_1")
  <-> last_led_state demo_manager !! "led_1" = Some true.
Proof.
  apply timer_records_follow_led_state.
  exists board, 0, [Call "led_1" "on"; Tick; Tick]. reflexivity.
Defined.

(** A command for one name leaves the records kept under another name. *)
Lemma clear_frame (n other : string) (m : manager) :
  n <> other ->
  devices (_clear_auto_off_timer n m) !! other = devices m !! other /\
  last_led_state (_clear_auto_off_timer n m) !! other = last_led_state m !! other /\
  led_timers (_clear_auto_off_timer n m) !! other = led_timers m !! other.
Proof.
  intros Hne. unfold _clear_auto_off_timer.
  destruct (led_timers m !! n); cbn; repeat split.
  now rewrite lookup_delete_ne.
Qed.

Lemma set_frame (n other : string) (m : manager) :
  n <> other ->
  devices (_set_auto_off_timer n m) !! other = devices m !! other /\
  last_led_state (_set_auto_off_timer n m) !! other = last_led_state m !! other /\
  led_timers (_set_auto_off_timer n m) !! other = led_timers m !! other.
Proof.
  intros Hne. unfold _set_auto_off_timer.
  destruct (0 <? Client.led_auto_off_time m); [|now repeat split].
  destruct (clear_frame n other m Hne) as (Hd & Hs & Ht).
  cbn. repeat split; [exact Hd | exact Hs |].
  now rewrite lookup_insert_ne.
Qed.

Lemma control_led_frame (n action other : string) (m : manager) :
  n <> other ->
  let m' := snd (control_led n action m) in
  devices m' !! other = devices m !! other /\
  last_led_state m' !! other = last_led_state m !! other /\
  led_timers m' !! other = led_timers m !! other.
Proof.
  intros Hne. cbv zeta. unfold control_led.
  destruct (devices m !! n) as [dev|]; [|now repeat split].
  repeat match goal with
  | |- context [if ?c then _ else _] => destruct c
  | |- context [match ?x with inl _ => _ | inr _ => _ end] => destruct x
  end; cbn [snd]; try (now repeat split).
  all: first
    [ destruct (set_frame n other
                  (set_last_led_state n true (set_device n d m)) Hne)
        as (-> & -> & ->)
    | destruct (clear_frame n other
                  (set_last_led_state n false (set_device n d m)) Hne)
        as (-> & -> & ->)
    | idtac ];
    cbn; rewrite ?lookup_insert_ne by exact Hne; repeat split.
Qed.

End ClientMore.

(** ** Configuration and the LED endpoint *)

Module ClientApiFacts.
Import Py ClientApi.

Lemma set_interval_positive (key : string) (z : Z) (cfg : system_config) :
  intervals_positive cfg -> intervals_positive (set_interval key (Z.max 1 z) cfg).
Proof.
  unfold intervals_positive, set_interval. intros (H1 & H2 & H3).
  destruct (String.eqb key "heartbeat_interval");
    [|destruct (String.eqb key "sensor_poll_interval")]; cbn; lia.
Qed.

Lemma update_items_positive (items : list (string * json)) (cfg : system_config)
    (updated : list string) :
  intervals_positive cfg -> intervals_positive (snd (update_items items cfg updated)).
Proof.
  revert cfg updated. induction items as [|[key value] items IH];
    intros cfg updated Hpos; [exact Hpos|].
  cbn [update_items].
  destruct (is_in key valid_keys); [|now apply IH].
  destruct (is_in key interval_keys).
  - destruct (int_of_json value); [|exact Hpos|exact Hpos].
    apply IH, set_interval_positive, Hpos.
  - destruct (String.eqb key "debug_mode"); apply IH; exact Hpos.
Qed.

(** X24.  Whatever is sent to [update_config], and however the request ends,
    no interval that was at least one second drops below one second: the auto-
    off cannot be switched off through the API. *)
Theorem config_intervals_stay_positive
    (data : json) (now : string) (cfg : system_config) :
  intervals_positive cfg ->
  intervals_positive (snd (update_config data now cfg)).
Proof.
  intros Hpos. unfold update_config.
  destruct (or_empty data); try exact Hpos.
  pose proof (update_items_positive fields cfg [] Hpos) as H.
  destruct (update_items fields cfg []) as [[updated | status d | ] cfg']; exact H.
Qed.

Lemma config_intervals_stay_positive_witness :
  intervals_positive
    (snd (update_config
            (JObj [("led_auto_off_time", JInt 0); ("heartbeat_interval", JStr "-5");
                   ("sensor_poll_interval", JNull)])
            "2025-01-01T00:00:00" default_config)).
Proof.
  apply config_intervals_stay_positive. unfold intervals_positive. cbn. lia.
Defined.

Lemma update_items_filter (items : list (string * json)) (cfg : system_config)
    (updated : list string) :
  update_items (List.filter (fun kv => is_in (fst kv) valid_keys) items) cfg updated
  = update_items items cfg updated.
Proof.
  revert cfg updated. induction items as [|[key value] items IH]; intros cfg updated;
    [reflexivity|].
  cbn [List.filter fst]. destruct (is_in key valid_keys) eqn:Hv.
  - cbn [update_items]. rewrite Hv.
    destruct (is_in key interval_keys).
    + destruct (int_of_json value); try reflexivity. apply IH.
    + destruct (String.eqb key "debug_mode"); apply IH.
  - cbn [update_items]. rewrite Hv. apply IH.
Qed.

(** X25.  Keys outside the four tunables change neither the configuration nor
    the answer of [update_config]. *)
Theorem unknown_config_keys_are_ignored
    (items : list (string * json)) (now : string) (cfg : system_config) :
  update_config (JObj (List.filter (fun kv => is_in (fst kv) valid_keys) items)) now cfg
  = update_config (JObj items) now cfg.
Proof.
  unfold update_config.
  assert (Hobj : forall l, exists l', or_empty (JObj l) = JObj l' /\
                   update_items l' cfg [] = update_items l cfg []).
  { intros [|x l]; eexists; split; reflexivity. }
  destruct (Hobj (List.filter (fun kv => is_in (fst kv) valid_keys) items))
    as (l1 & -> & ->).
  destruct (Hobj items) as (l2 & -> & ->).
  now rewrite update_items_filter.
Qed.




Lemma update_items_assignments (items : list (string * json))
    (cfg : system_config) (updated : list string) :
  snd (update_items items cfg updated) = foldl assign cfg (assignments items).
Proof.
  revert cfg updated. induction items as [|[key value] items IH]; intros cfg updated;
    [reflexivity|].
  cbn [update_items assignments].
  destruct (is_in key valid_keys); [|apply IH].
  destruct (is_in key interval_keys).
  - destruct (int_of_json value); try reflexivity. cbn [foldl assign]. apply IH.
  - destruct (String.eqb key "debug_mode"); [cbn [foldl assign]|]; apply IH.
Qed.

(** How an item ends the loop does not depend on the configuration. *)
Lemma update_items_ending (items : list (string * json))
    (cfg1 cfg2 : system_config) (updated : list string) :
  fst (update_items items cfg1 updated) = fst (update_items items cfg2 updated).
Proof.
  revert cfg1 cfg2 updated. induction items as [|[key value] items IH];
    intros cfg1 cfg2 updated; [reflexivity|].
  cbn [update_items].
  destruct (is_in key valid_keys); [|apply IH].
  destruct (is_in key interval_keys).
  - destruct (int_of_json value); try reflexivity. apply IH.
  - destruct (String.eqb key "debug_mode"); apply IH.
Qed.

(** Two assignments commute, or the later one hides the earlier one. *)
Lemma assign_twice (a b : assignment) (cfg : system_config) :
  assign (assign cfg a) b = assign (assign cfg b) a \/
  (forall c, assign (assign c a) b = assign c b).
Proof.
  destruct a as [k1 z1 | b1], b as [k2 z2 | b2]; cbn [assign];
    unfold set_interval, set_debug_mode;
    repeat match goal with
           | |- context [String.eqb ?k ?s] => destruct (String.eqb k s)
           end; cbn; auto.
Qed.

Lemma assign_absorbs (l : list assignment) (a : assignment) (cfg : system_config) :
  assign (foldl assign (assign cfg a) l) a = assign (foldl assign cfg l) a.
Proof.
  revert cfg. induction l as [|b l IH]; intros cfg; cbn [foldl].
  - destruct (assign_twice a a cfg) as [_ | H]; [|apply H].
    destruct a as [k z | b]; cbn [assign]; unfold set_interval, set_debug_mode;
      repeat match goal with
             | |- context [String.eqb ?k ?s] => destruct (String.eqb k s)
             end; reflexivity.
  - destruct (assign_twice a b cfg) as [Hcomm | Hhide].
    + rewrite Hcomm. apply IH.
    + now rewrite Hhide.
Qed.

Lemma assignments_idempotent (l : list assignment) (cfg : system_config) :
  foldl assign (foldl assign cfg l) l = foldl assign cfg l.
Proof.
  revert cfg. induction l as [|a l IH] using rev_ind; intros cfg; [reflexivity|].
  rewrite !foldl_app. cbn [foldl].
  rewrite <- (foldl_app assign l [a] cfg) at 1.
  rewrite foldl_app. cbn [foldl]. rewrite assign_absorbs. now rewrite IH.
Qed.

Lemma update_config_parts (data : json) (now : string) (cfg : system_config) :
  snd (update_config data now cfg)
  = match or_empty data with
    | JObj items => snd (update_items items cfg [])
    | _ => cfg
    end /\
  code (fst (update_config data now cfg))
  = match or_empty data with
    | JObj items =>
        match fst (update_items items cfg []) with
        | Completed _ => 200
        | Aborted _ _ => 400
        | Crashed => 500
        end
    | _ => 500
    end.
Proof.
  unfold update_config. destruct (or_empty data); try (split; reflexivity).
  destruct (update_items fields cfg []) as [[u | st d | ] c]; split; reflexivity.
Qed.

(** X27.  [update_config] is idempotent: the same body sent again leaves the
    configuration as the first sending left it and ends with the same status. *)
Theorem update_config_twice (data : json) (now1 now2 : string) (cfg : system_config) :
  let first := update_config data now1 cfg in
  let second := update_config data now2 (snd first) in
  snd second = snd first /\ code (fst second) = code (fst first).
Proof.
  cbv zeta.
  destruct (update_config_parts data now1 cfg) as [Hc1 Hk1].
  destruct (update_config_parts data now2 (snd (update_config data now1 cfg)))
    as [Hc2 Hk2].
  rewrite Hc2, Hk2, Hk1. clear Hc2 Hk2 Hk1. rewrite Hc1.
  destruct (or_empty data); try (split; reflexivity).
  rewrite (update_items_ending fields _ cfg).
  split; [|reflexivity].
  rewrite !update_items_assignments. apply assignments_idempotent.
Qed.

(** Without a device whose name has [led] in it the endpoint answers 404 and
    touches nothing. *)
Lemma primary_led_missing
    (order : list string) (fields : list (string * json)) (now : string)
    (m : Client.manager) :
  primary_led order = None ->
  control_primary_led order (JObj fields) now m
  = ({| code := 404;
        payload := JObj [("success", JBool false);
                         ("message", JStr "No LED devices available")] |}, m).
Proof.
  unfold primary_led, control_primary_led. intros Hnone.
  assert (Hobj : exists l, or_empty (JObj fields) = JObj l)
    by (destruct fields; eexists; reflexivity).
  destruct Hobj as [l ->].
  destruct (List.filter (contains "led") order); [reflexivity | discriminate].
Qed.

Lemma primary_led_missing_witness :
  control_primary_led ["button_1"; "pwm_1"] (JObj [("state", JStr "on")])
    "2025-01-01T00:00:00" (Client.new_manager Client.board 0)
  = ({| code := 404;
        payload := JObj [("success", JBool false);
                         ("message", JStr "No LED devices available")] |},
     Client.new_manager Client.board 0).
Proof. apply primary_led_missing. reflexivity. Defined.

(** X28.  The LED endpoint acts on one device only: whatever is sent, the
    device, the commanded state and the timer record of every name other than
    the first one with [led] in it stay as they were; and an answer other than
    200 means that nothing at all was changed. *)
Theorem primary_led_endpoint_scope
    (order : list string) (data : json) (now other : string) (m : Client.manager) :
  primary_led order <> Some other ->
  let out := control_primary_led order data now m in
  Client.devices (snd out) !! other = Client.devices m !! other /\
  Client.last_led_state (snd out) !! other = Client.last_led_state m !! other /\
  Client.led_timers (snd out) !! other = Client.led_timers m !! other /\
  (code (fst out) <> 200 -> snd out = m).
Proof.
  intros Hp. cbv zeta. unfold control_primary_led, primary_led in *.
  destruct (or_empty data); try (now repeat split).
  destruct (List.filter (contains "led") order) as [|p rest]; [now repeat split|].
  assert (Hne : p <> other) by (intros ->; now apply Hp).
  pose proof (ClientMore.control_led_frame p) as Hframe.
  unfold control_led_value.
  destruct (dict_get fields "state" (JStr "off")) as [ | b | z | s | l | o];
    try (destruct (Client.devices m !! p); cbn [fst snd code];
         repeat split; intros Hc; now contradiction Hc).
  specialize (Hframe s other m Hne). cbv zeta in Hframe.
  destruct (Client.control_led p s m) as [r m']. cbn [fst snd code] in *.
  destruct Hframe as (Hd & Hs & Ht). repeat split; try assumption.
  intros Hc. now contradiction Hc.
Qed.

Lemma primary_led_endpoint_scope_witness :
  let m := Client.new_manager Client.board 0 in
  let out := control_primary_led ["led_1"; "led_2"; "button_1"; "pwm_1"]
               (JObj [("state", JStr "on")]) "2025-01-01T00:00:00" m in
  Client.devices (snd out) !! "led_2" = Client.devices m !! "led_2" /\
  Client.last_led_state (snd out) !! "led_2" = Client.last_led_state m !! "led_2" /\
  Client.led_timers (snd out) !! "led_2" = Client.led_timers m !! "led_2" /\
  (code (fst out) <> 200 -> snd out = m).
Proof.
  apply (primary_led_endpoint_scope ["led_1"; "led_2"; "button_1"; "pwm_1"]
           (JObj [("state", JStr "on")]) "2025-01-01T00:00:00" "led_2"
           (Client.new_manager Client.board 0)).
  vm_compute. discriminate.
Defined.

(** A toggle sent to the endpoint flips the first LED of the board, reports
    the new state and names the device; no other device changes. *)
Lemma control_primary_led_toggle
    (order : list string) (name now : string) (b : bool) (m : Client.manager) :
  primary_led order = Some name ->
  Client.devices m !! name = Some (Client.LED b) ->
  let out := control_primary_led order (JObj [("state", JStr "toggle")]) now m in
  fst out
  = {| code := 200;
       payload := JObj [("success", JBool true);
                        ("state", JStr (if b then "off" else "on"));
                        ("message", JStr ("LED " +:+ name +:+ " toggled "
                                          +:+ (if b then "off" else "on")));
                        ("device", JStr name);
                        ("timestamp", JStr now)] |} /\
  Client.devices (snd out) = <[name := Client.LED (negb b)]> (Client.devices m).
Proof.
  unfold primary_led, control_primary_led. intros Hp Hdev. cbv zeta.
  cbn [or_empty truthy dict_get String.eqb].
  change (dict_get [("state", JStr "toggle")] "state" (JStr "off"))
    with (JStr "toggle").
  destruct (List.filter (contains "led") order) as [|p rest]; [discriminate|].
  injection Hp as ->. unfold control_led_value, Client.control_led.
  rewrite Hdev. cbn [String.eqb Ascii.eqb Bool.eqb].
  destruct b; cbn; (split; [reflexivity|]).
  - unfold Client._clear_auto_off_timer. cbn.
    destruct (Client.led_timers m !! name); reflexivity.
  - unfold Client._set_auto_off_timer. cbn.
    destruct (0 <? Client.led_auto_off_time m); [|reflexivity].
    unfold Client._clear_auto_off_timer. cbn.
    destruct (Client.led_timers m !! name); reflexivity.
Qed.

End ClientApiFacts.

(** ** Coordinator and node together *)

Module FleetFacts.
Import Py Fleet.

(** X29.  Coordinator and node together: a toggle relayed to a registered node
    whose first LED device is an LED flips that LED, and the coordinator
    answers 200 with the state the LED is in afterwards. *)
Theorem relayed_toggle_flips_the_led
    (w : Dashboard.world) (node_name : string) (info : Dashboard.node_info)
    (now : Dashboard.datetime) (order : list string) (name client_now : string)
    (b : bool) (m : Client.manager) :
  Dashboard.connected_clients w !! KStr node_name = Some info ->
  truthy (Dashboard.ip info) = true ->
  ClientApi.primary_led order = Some name ->
  Client.devices m !! name = Some (Client.LED b) ->
  let node o := ClientApi.control_primary_led order (Dashboard.json_body o)
                  client_now m in
  let net o := as_reply (fst (node o)) in
  fst (Dashboard.serve (Dashboard.ToggleLed net now node_name) w)
  = {| Dashboard.code := 200;
       Dashboard.payload :=
         JObj [("success", JBool true);
               ("state", JStr (if b then "off" else "on"));
               ("node", JStr node_name);
               ("timestamp", JStr (Dashboard.isoformat now))] |} /\
  Client.lit name (snd (node (Dashboard.led_request node_name info))) = negb b.
Proof.
  intros Hk Hip Hp Hdev node net.
  destruct (ClientApiFacts.control_primary_led_toggle order name client_now b m Hp Hdev)
    as [Hans Hdevs].
  assert (Hnode : node (Dashboard.led_request node_name info)
                  = ClientApi.control_primary_led order
                      (JObj [("state", JStr "toggle")]) client_now m)
    by reflexivity.
  split.
  - unfold Dashboard.serve, Dashboard.toggle_led, Dashboard.try_except,
      Dashboard.bind, Dashboard.ret, Dashboard.read_connected_clients,
      Dashboard.requests_post. cbn [fst snd]. rewrite Hk. cbn match.
    rewrite Hip. cbn [negb].
    change (net _) with (as_reply (fst (node (Dashboard.led_request node_name info)))).
    rewrite Hnode, Hans. destruct b; reflexivity.
  - rewrite Hnode. unfold Client.lit. rewrite Hdevs, lookup_insert_eq. reflexivity.
Qed.

Lemma relayed_toggle_flips_the_led_witness :
  let node o := ClientApi.control_primary_led ["led_1"; "led_2"; "button_1"; "pwm_1"]
                  (Dashboard.json_body o) "2025-01-01T00:00:00"
                  Client.demo_manager in
  let net o := as_reply (fst (node o)) in
  fst (Dashboard.serve (Dashboard.ToggleLed net Dashboard.demo_time "pumpkin")
         Dashboard.demo_world)
  = {| Dashboard.code := 200;
       Dashboard.payload :=
         JObj [("success", JBool true);
               ("state", JStr (if true then "off" else "on"));
               ("node", JStr "pumpkin");
               ("timestamp", JStr (Dashboard.isoformat Dashboard.demo_time))] |} /\
  Client.lit "led_1"
    (snd (node (Dashboard.led_request "pumpkin"
                  (Dashboard.descriptor Dashboard.demo_fields)))) = negb true.
Proof.
  apply (relayed_toggle_flips_the_led Dashboard.demo_world "pumpkin"
           (Dashboard.descriptor Dashboard.demo_fields) Dashboard.demo_time
           ["led_1"; "led_2"; "button_1"; "pwm_1"] "led_1" "2025-01-01T00:00:00"
           true Client.demo_manager).
  - vm_compute. reflexivity.
  - reflexivity.
  - reflexivity.
  - vm_compute. reflexivity.
Defined.

(** X30.  A node's own heartbeat makes it addressable: the coordinator stores
    the five fields it keeps (the system information is dropped), and a relay
    call for that name goes to the node's address, the port that Flask listens
    on and the rule of the node's LED endpoint. *)
Theorem heartbeat_makes_node_addressable
    (w : Dashboard.world) (node_name node_ip stamp : string) (order : list string)
    (sensor_data system_info : json) (seen acked now : Dashboard.datetime)
    (net : Dashboard.outbound -> pyexc + Dashboard.reply) :
  node_name <> "" -> node_ip <> "" ->
  let body := ClientApi.heartbeat_data node_name node_ip stamp order
                sensor_data system_info in
  let w1 := snd (Dashboard.serve (Dashboard.Heartbeat (inr body) seen acked) w) in
  Dashboard.connected_clients w1 !! KStr node_name
  = Some {| Dashboard.ip := JStr node_ip;
            Dashboard.status := JStr "online";
            Dashboard.timestamp := JStr stamp;
            Dashboard.devices := JArr (map JStr order);
            Dashboard.sensor_data := sensor_data |} /\
  Dashboard.sent (snd (Dashboard.serve (Dashboard.ToggleLed net now node_name) w1))
  = Dashboard.sent w ++
    [{| Dashboard.url := "http://" +:+ node_ip +:+ ":"
                         +:+ Z_to_string ClientApi.flask_port
                         +:+ ClientApi.led_route node_name;
        Dashboard.json_body := JObj [("state", JStr "toggle")];
        Dashboard.timeout := 5 |}].
Proof.
  intros Hname Hip body w1.
  assert (Hfields : exists fields, body = JObj fields /\
            Dashboard.identity fields = Some (KStr node_name) /\
            Dashboard.descriptor fields
            = {| Dashboard.ip := JStr node_ip;
                 Dashboard.status := JStr "online";
                 Dashboard.timestamp := JStr stamp;
                 Dashboard.devices := JArr (map JStr order);
                 Dashboard.sensor_data := sensor_data |}).
  { eexists. split; [reflexivity|]. split; [|reflexivity].
    unfold Dashboard.identity. cbn.
    apply String.eqb_neq in Hname. now rewrite Hname. }
  destruct Hfields as (fields & Hbody & Hid & Hdesc).
  assert (Hw1 : w1 = {| Dashboard.connected_clients :=
                          <[KStr node_name := Dashboard.descriptor fields]>
                            (Dashboard.connected_clients w);
                        Dashboard.last_heartbeat :=
                          <[KStr node_name := seen]> (Dashboard.last_heartbeat w);
                        Dashboard.sent := Dashboard.sent w |}).
  { subst w1. rewrite Hbody. unfold Dashboard.serve.
    now rewrite (DashboardFacts.receive_heartbeat_registers _ _ _ _ _ Hid). }
  rewrite Hw1, Hdesc. cbn [Dashboard.connected_clients].
  split; [apply lookup_insert_eq|].
  unfold Dashboard.serve, Dashboard.toggle_led, Dashboard.try_except,
    Dashboard.bind, Dashboard.ret, Dashboard.read_connected_clients,
    Dashboard.requests_post. cbn [fst snd Dashboard.connected_clients].
  rewrite lookup_insert_eq. cbn [Dashboard.ip truthy].
  apply String.eqb_neq in Hip. rewrite Hip. cbn [negb Dashboard.sent py_str].
  change (Z_to_string ClientApi.flask_port) with "5000".
  unfold ClientApi.led_route.
  change (":" +:+ "5000" +:+ "/" +:+ node_name +:+ "/api/v1/actuators/led")
    with (":5000/" +:+ node_name +:+ "/api/v1/actuators/led").
  destruct (net _) as [e | r]; cbn.
  - destruct (is_Timeout e); [reflexivity|].
    destruct (is_ConnectionError e); reflexivity.
  - destruct (Dashboard.status_code r =? 200); [|reflexivity].
    unfold Dashboard.response_json, Dashboard.raise, Dashboard.get.
    destruct (Dashboard.reply_json r) as [data|]; [|reflexivity].
    destruct data; reflexivity.
Qed.

Lemma heartbeat_makes_node_addressable_witness :
  let body := ClientApi.heartbeat_data "pumpkin" "192.168.4.11"
                "2025-01-01T00:00:00" ["led_1"; "led_2"; "button_1"; "pwm_1"]
                (JObj []) (JObj [("hostname", JStr "pumpkin")]) in
  let w1 := snd (Dashboard.serve
                   (Dashboard.Heartbeat (inr body) Dashboard.demo_time
                      Dashboard.demo_time) Dashboard.initial) in
  Dashboard.connected_clients w1 !! KStr "pumpkin"
  = Some {| Dashboard.ip := JStr "192.168.4.11";
            Dashboard.status := JStr "online";
            Dashboard.timestamp := JStr "2025-01-01T00:00:00";
            Dashboard.devices :=
              JArr (map JStr ["led_1"; "led_2"; "button_1"; "pwm_1"]);
            Dashboard.sensor_data := JObj [] |} /\
  Dashboard.sent
    (snd (Dashboard.serve
            (Dashboard.ToggleLed Dashboard.demo_refused Dashboard.demo_time
               "pumpkin") w1))
  = Dashboard.sent Dashboard.initial ++
    [{| Dashboard.url := "http://" +:+ "192.168.4.11" +:+ ":"
                         +:+ Z_to_string ClientApi.flask_port
                         +:+ ClientApi.led_route "pumpkin";
        Dashboard.json_body := JObj [("state", JStr "toggle")];
        Dashboard.timeout := 5 |}].
Proof.
  apply (heartbeat_makes_node_addressable Dashboard.initial "pumpkin"
           "192.168.4.11" "2025-01-01T00:00:00"
           ["led_1"; "led_2"; "button_1"; "pwm_1"] (JObj [])
           (JObj [("hostname", JStr "pumpkin")]) Dashboard.demo_time
           Dashboard.demo_time Dashboard.demo_time Dashboard.demo_refused);
    discriminate.
Defined.

End FleetFacts.
